(** * img_extract: image harvesting and deduplicating download

    A shallow embedding of [img_extract.py].  The functions of the script
    keep their names: [extract_images_from_current_state],
    [get_image_urls_from_page], [is_svg_image], [download_image] and the
    download loop of [main].

    Conventions of the model.
    - A Python [str] is a [string] whose characters are the code points
      0..255.  Case folding, character classes and UTF-8 encoding are the
      Python ones on that range.
    - A Python [set] of strings is a [gset string]; an attribute
      dictionary is a [gmap string string].
    - The browser, the network and the file system are explicit state:
      the browser by an interface of commands over an arbitrary state
      type, the network by an oracle, the destination directory by the
      set of paths that exist.
    - Library functions the script calls ([urllib.parse], [os.path],
      [hashlib.md5], the two regular expressions) are modelled below, each
      in a module named after the library. *)

From Stdlib Require Import ZArith NArith Bool Lia QArith.
From Stdlib Require Import Ascii.
From Stdlib Require String.
From stdpp Require Import gmap strings list.

(** ** Python string primitives *)
Module Py.

Definition ord (c : ascii) : N := N_of_ascii c.

(** [str.isspace] on one character; also the class [\s] of [re]. *)
Definition isspace (c : ascii) : bool :=
  let n := ord c in
  ((9 <=? n) && (n <=? 13) || (28 <=? n) && (n <=? 32)
   || (n =? 133) || (n =? 160))%N.

(** The class [\d] of [re]. *)
Definition isdigit (c : ascii) : bool :=
  let n := ord c in ((48 <=? n) && (n <=? 57))%N.

Definition isupper_ascii (c : ascii) : bool :=
  let n := ord c in ((65 <=? n) && (n <=? 90))%N.

Definition islower_ascii (c : ascii) : bool :=
  let n := ord c in ((97 <=? n) && (n <=? 122))%N.

(** [c.isascii() and c.isalpha()] *)
Definition isascii_alpha (c : ascii) : bool :=
  isupper_ascii c || islower_ascii c.

(** [str.lower] on one character: A-Z and the capital letters of
    Latin-1 are moved by 32. *)
Definition lower_char (c : ascii) : ascii :=
  let n := ord c in
  if (isupper_ascii c
      || ((192 <=? n) && (n <=? 222) && negb (n =? 215)))%N
  then ascii_of_N (n + 32) else c.

Fixpoint lower (s : string) : string :=
  match s with
  | EmptyString => EmptyString
  | String c s' => String (lower_char c) (lower s')
  end.

(** [s.startswith(p)] *)
Fixpoint startswith (s p : string) {struct p} : bool :=
  match p with
  | EmptyString => true
  | String a p' =>
      match s with
      | EmptyString => false
      | String b s' => if Ascii.eqb a b then startswith s' p' else false
      end
  end.

(** [s[n:]] *)
Fixpoint drop (n : nat) (s : string) : string :=
  match n, s with
  | O, _ => s
  | S n', EmptyString => EmptyString
  | S n', String _ s' => drop n' s'
  end.

(** [s[:n]] *)
Fixpoint take (n : nat) (s : string) : string :=
  match n, s with
  | O, _ => EmptyString
  | S n', EmptyString => EmptyString
  | S n', String c s' => String c (take n' s')
  end.

(** [s.endswith(p)] *)
Definition endswith (s p : string) : bool :=
  (String.length p <=? String.length s)%nat
  && String.eqb (drop (String.length s - String.length p) s) p.

(** [sub in s] *)
Fixpoint contains (s sub : string) : bool :=
  startswith s sub
  || match s with
     | EmptyString => false
     | String _ s' => contains s' sub
     end.

(** [c in s] for a single character. *)
Fixpoint has_char (c : ascii) (s : string) : bool :=
  match s with
  | EmptyString => false
  | String b s' => Ascii.eqb c b || has_char c s'
  end.

(** Truth value of a string: non-empty. *)
Definition truthy (s : string) : bool :=
  match s with EmptyString => false | _ => true end.

(** The longest prefix whose characters satisfy [p], and the rest. *)
Fixpoint span (p : ascii → bool) (s : string) : string * string :=
  match s with
  | EmptyString => (EmptyString, EmptyString)
  | String c s' =>
      if p c then let '(a, b) := span p s' in (String c a, b)
      else (EmptyString, s)
  end.

(** [s.partition(c)]: the text before the first [c], whether [c] was
    found, and the text after it. *)
Definition partition (c : ascii) (s : string) : string * bool * string :=
  let '(a, b) := span (λ x, negb (Ascii.eqb x c)) s in
  match b with
  | EmptyString => (a, false, EmptyString)
  | String _ b' => (a, true, b')
  end.

(** [s.split(c)] for a one-character separator. *)
Fixpoint split (c : ascii) (s : string) : list string :=
  match s with
  | EmptyString => [EmptyString]
  | String x s' =>
      if Ascii.eqb x c then EmptyString :: split c s'
      else match split c s' with
           | w :: ws => String x w :: ws
           | [] => [String x EmptyString]
           end
  end.

(** [c.join(l)] *)
Fixpoint join (c : string) (l : list string) : string :=
  match l with
  | [] => EmptyString
  | [w] => w
  | w :: ws => w +:+ c +:+ join c ws
  end.

(** [s.replace(c, "")] *)
Fixpoint remove_char (c : ascii) (s : string) : string :=
  match s with
  | EmptyString => EmptyString
  | String x s' =>
      if Ascii.eqb x c then remove_char c s' else String x (remove_char c s')
  end.

(** [s.lstrip(chars)] where [chars] is given as a predicate. *)
Fixpoint lstrip (p : ascii → bool) (s : string) : string :=
  match s with
  | EmptyString => EmptyString
  | String c s' => if p c then lstrip p s' else s
  end.

(** [s.rfind(c)]: position of the last [c], if any. *)
Fixpoint rfind (c : ascii) (s : string) : option nat :=
  match s with
  | EmptyString => None
  | String x s' =>
      match rfind c s' with
      | Some i => Some (S i)
      | None => if Ascii.eqb x c then Some O else None
      end
  end.

(** [s.find(c)]: position of the first [c], if any. *)
Fixpoint find (c : ascii) (s : string) : option nat :=
  match s with
  | EmptyString => None
  | String x s' =>
      if Ascii.eqb x c then Some O
      else match find c s' with Some i => Some (S i) | None => None end
  end.

(** [all(p(c) for c in s)] *)
Fixpoint all_chars (p : ascii → bool) (s : string) : bool :=
  match s with
  | EmptyString => true
  | String c s' => p c && all_chars p s'
  end.

(** [s.encode()]: UTF-8; a code point above 127 takes two bytes. *)
Fixpoint encode (s : string) : list Z :=
  match s with
  | EmptyString => []
  | String c s' =>
      let n := Z.of_N (ord c) in
      if (n <? 128)%Z then n :: encode s'
      else Z.lor 192 (Z.shiftr n 6) :: Z.lor 128 (Z.land n 63) :: encode s'
  end.

End Py.

(** ** The two regular expressions of the extractor *)
Module Re.

(** One match of [([^\s]+)\s*(?:\d+[wx])?,?] at the start of [s]:
    the captured group and the text after the match.  Every part after
    the group is optional and greedy, and a shorter run of digits can
    never be followed by [w] or [x], so the first attempt of the
    backtracking matcher is the match. *)
Definition match_srcset (s : string) : option (string * string) :=
  let '(url, r1) := Py.span (λ c, negb (Py.isspace c)) s in
  match url with
  | EmptyString => None
  | _ =>
      let '(_, r2) := Py.span Py.isspace r1 in
      let r3 :=
        match Py.span Py.isdigit r2 with
        | (String _ _, String c r) =>
            if Ascii.eqb c "w" || Ascii.eqb c "x" then r else r2
        | _ => r2
        end in
      let r4 :=
        match r3 with
        | String c r => if Ascii.eqb c "," then r else r3
        | EmptyString => r3
        end in
      Some (url, r4)
  end.

Definition is_quote_or_paren (c : ascii) : bool :=
  Ascii.eqb c "034" || Ascii.eqb c "'" || Ascii.eqb c ")".

Definition is_quote (c : ascii) : bool :=
  Ascii.eqb c "034" || Ascii.eqb c "'".

(** One match of [url\(["\']?([^"\')]+)] at the start of [s].  When the
    optional quote is present the group must start after it: without it
    the group would have to start at the quote, which it excludes. *)
Definition match_css_url (s : string) : option (string * string) :=
  if Py.startswith s "url(" then
    let r0 := Py.drop 4 s in
    let r1 :=
      match r0 with
      | String c r => if is_quote c then r else r0
      | EmptyString => r0
      end in
    let '(g, r2) := Py.span (λ c, negb (is_quote_or_paren c)) r1 in
    match g with
    | EmptyString => None
    | _ => Some (g, r2)
    end
  else None.

(** [re.findall] for a pattern with one group whose matches are never
    empty: scan from the left; after a match resume at its end,
    otherwise one character further.  [skip] counts the characters of
    the last match still to be passed over. *)
Fixpoint findall_from (m : string → option (string * string))
    (s : string) (skip : nat) : list string :=
  match s with
  | EmptyString => []
  | String _ s' =>
      match skip with
      | S k => findall_from m s' k
      | O =>
          match m s with
          | Some (g, rest) =>
              g :: findall_from m s'
                     (String.length s - String.length rest - 1)
          | None => findall_from m s' 0
          end
      end
  end.

Definition findall (m : string → option (string * string)) (s : string)
  : list string := findall_from m s 0.

End Re.

(** ** hashlib.md5 (RFC 1321) on a list of bytes *)
Module MD5.
Local Open Scope Z_scope.

Definition wrap (x : Z) : Z := x mod 2 ^ 32.
Definition add32 (x y : Z) : Z := wrap (x + y).
Definition not32 (x : Z) : Z := Z.lxor x 0xffffffff.
Definition rotl32 (x n : Z) : Z :=
  wrap (Z.lor (Z.shiftl x n) (Z.shiftr x (32 - n))).

(** The sine table and the rotation amounts, one pair per step. *)
Definition K : list Z :=
  [ 0xd76aa478; 0xe8c7b756; 0x242070db; 0xc1bdceee;
    0xf57c0faf; 0x4787c62a; 0xa8304613; 0xfd469501;
    0x698098d8; 0x8b44f7af; 0xffff5bb1; 0x895cd7be;
    0x6b901122; 0xfd987193; 0xa679438e; 0x49b40821;
    0xf61e2562; 0xc040b340; 0x265e5a51; 0xe9b6c7aa;
    0xd62f105d; 0x02441453; 0xd8a1e681; 0xe7d3fbc8;
    0x21e1cde6; 0xc33707d6; 0xf4d50d87; 0x455a14ed;
    0xa9e3e905; 0xfcefa3f8; 0x676f02d9; 0x8d2a4c8a;
    0xfffa3942; 0x8771f681; 0x6d9d6122; 0xfde5380c;
    0xa4beea44; 0x4bdecfa9; 0xf6bb4b60; 0xbebfbc70;
    0x289b7ec6; 0xeaa127fa; 0xd4ef3085; 0x04881d05;
    0xd9d4d039; 0xe6db99e5; 0x1fa27cf8; 0xc4ac5665;
    0xf4292244; 0x432aff97; 0xab9423a7; 0xfc93a039;
    0x655b59c3; 0x8f0ccc92; 0xffeff47d; 0x85845dd1;
    0x6fa87e4f; 0xfe2ce6e0; 0xa3014314; 0x4e0811a1;
    0xf7537e82; 0xbd3af235; 0x2ad7d2bb; 0xeb86d391 ].

Definition R : list Z :=
  [ 7; 12; 17; 22; 7; 12; 17; 22; 7; 12; 17; 22; 7; 12; 17; 22;
    5; 9; 14; 20; 5; 9; 14; 20; 5; 9; 14; 20; 5; 9; 14; 20;
    4; 11; 16; 23; 4; 11; 16; 23; 4; 11; 16; 23; 4; 11; 16; 23;
    6; 10; 15; 21; 6; 10; 15; 21; 6; 10; 15; 21; 6; 10; 15; 21 ].

(** Little-endian bytes of a number, [n] of them. *)
Fixpoint le_bytes (n : nat) (x : Z) : list Z :=
  match n with
  | O => []
  | S n' => x mod 256 :: le_bytes n' (x / 256)
  end.

Fixpoint le_word (bs : list Z) : Z :=
  match bs with
  | [] => 0
  | b :: bs' => b + 256 * le_word bs'
  end.

(** Cut a list in pieces of [k] elements; [fuel] bounds the pieces. *)
Fixpoint pieces {A} (fuel k : nat) (l : list A) : list (list A) :=
  match fuel, l with
  | O, _ | _, [] => []
  | S f, _ => take k l :: pieces f k (drop k l)
  end.

Definition pad (msg : list Z) : list Z :=
  let n := Z.of_nat (length msg) in
  msg ++ 128 :: repeat 0 (Z.to_nat ((55 - n) mod 64)) ++ le_bytes 8 (8 * n).

Record state := State { sa : Z; sb : Z; sc : Z; sd : Z }.

Definition init : state :=
  State 0x67452301 0xefcdab89 0x98badcfe 0x10325476.

Definition step (m : list Z) (st : state) (i : nat) : state :=
  let '(State a b c d) := st in
  let iz := Z.of_nat i in
  let '(f, g) :=
    if iz <? 16 then (Z.lor (Z.land b c) (Z.land (not32 b) d), iz)
    else if iz <? 32 then
      (Z.lor (Z.land d b) (Z.land (not32 d) c), (5 * iz + 1) mod 16)
    else if iz <? 48 then (Z.lxor b (Z.lxor c d), (3 * iz + 5) mod 16)
    else (Z.lxor c (Z.lor b (not32 d)), (7 * iz) mod 16) in
  let f' := add32 (add32 (add32 f a) (nth i K 0)) (nth (Z.to_nat g) m 0) in
  State d (add32 b (rotl32 f' (nth i R 0))) b c.

Definition block (st : state) (chunk : list Z) : state :=
  let m := le_word <$> pieces 16 4 chunk in
  let '(State a b c d) := foldl (step m) st (seq 0 64) in
  State (add32 (sa st) a) (add32 (sb st) b) (add32 (sc st) c)
    (add32 (sd st) d).

Definition digest (msg : list Z) : list Z :=
  let p := pad msg in
  let '(State a b c d) := foldl block init (pieces (length p) 64 p) in
  le_bytes 4 a ++ le_bytes 4 b ++ le_bytes 4 c ++ le_bytes 4 d.

Definition hex_digit (x : Z) : ascii :=
  if x <? 10 then ascii_of_N (Z.to_N (48 + x))
  else ascii_of_N (Z.to_N (87 + x)).

Fixpoint hex (bs : list Z) : string :=
  match bs with
  | [] => EmptyString
  | b :: bs' => String (hex_digit (b / 16)) (String (hex_digit (b mod 16)) (hex bs'))
  end.

(** [hashlib.md5(bytes).hexdigest()] *)
Definition hexdigest (msg : list Z) : string := hex (digest msg).

End MD5.

(** ** ipaddress: which texts are IPv6 addresses

    [urllib.parse] raises [ValueError] on an authority with a malformed
    bracketed host; only whether the constructors succeed matters. *)
Module IpAddress.

Definition is_hex (c : ascii) : bool :=
  let n := Py.ord c in
  (Py.isdigit c || (65 <=? n) && (n <=? 70) || (97 <=? n) && (n <=? 102))%N.

Fixpoint decimal (acc : N) (s : string) : N :=
  match s with
  | EmptyString => acc
  | String c s' => decimal (10 * acc + (Py.ord c - 48))%N s'
  end.

(** [IPv4Address._parse_octet] succeeds. *)
Definition valid_octet (s : string) : bool :=
  Py.truthy s && Py.all_chars Py.isdigit s
  && (String.length s <=? 3)%nat
  && (String.eqb s "0" || negb (Py.startswith s "0"))
  && (decimal 0 s <=? 255)%N.

(** [IPv4Address(s)] succeeds. *)
Definition valid_ipv4 (s : string) : bool :=
  negb (Py.has_char "/" s) && Py.truthy s
  && let octets := Py.split "." s in
     (length octets =? 4)%nat && forallb valid_octet octets.

(** [IPv6Address._parse_hextet] succeeds. *)
Definition valid_hextet (s : string) : bool :=
  Py.all_chars is_hex s && (String.length s <=? 4)%nat && Py.truthy s.

(** Positions [1 .. len-2] that hold an empty part. *)
Definition skip_indices (parts : list string) : list nat :=
  filter (λ i, parts !! i = Some EmptyString) (seq 1 (length parts - 2)).

(** [IPv6Address._ip_int_from_string] succeeds. *)
Definition valid_ipv6_body (ip_str : string) : bool :=
  Py.truthy ip_str
  && let parts := Py.split ":" ip_str in
     (3 <=? length parts)%nat
     && let last_part := List.last parts EmptyString in
        (if Py.has_char "." last_part then valid_ipv4 last_part else true)
        && let parts :=
             if Py.has_char "." last_part
             then removelast parts ++ ["0"; "0"] else parts in
           let n := length parts in
           (n <=? 9)%nat
           && match skip_indices parts with
              | [] =>
                  (n =? 8)%nat && forallb valid_hextet parts
              | [i] =>
                  let first_empty := negb (Py.truthy (List.hd EmptyString parts)) in
                  let last_empty := negb (Py.truthy (List.last parts EmptyString)) in
                  let hi := if first_empty then (i - 1)%nat else i in
                  let lo := if last_empty then (n - i - 2)%nat
                            else (n - i - 1)%nat in
                  (if first_empty then (hi =? 0)%nat else true)
                  && (if last_empty then (lo =? 0)%nat else true)
                  && (hi + lo <=? 7)%nat
                  && forallb valid_hextet (take hi parts)
                  && forallb valid_hextet (drop (n - lo) parts)
              | _ => false
              end.

(** [IPv6Address(s)] succeeds: no slash, a well-formed scope id. *)
Definition valid_ipv6 (s : string) : bool :=
  negb (Py.has_char "/" s)
  && let '(addr, sep, scope_id) := Py.partition "%" s in
     (if sep then Py.truthy scope_id && negb (Py.has_char "%" scope_id)
      else true)
     && valid_ipv6_body addr.

End IpAddress.

(** ** urllib.parse

    [None] stands for the [ValueError] the library raises on a malformed
    bracketed host.  The check of the authority under NFKC normalisation
    never fails for code points below 256 and is left out. *)
Module UrlParse.

Definition uses_relative : list string :=
  [ ""; "ftp"; "http"; "gopher"; "nntp"; "imap"; "wais"; "file"; "https";
    "shttp"; "mms"; "prospero"; "rtsp"; "rtspu"; "sftp"; "svn"; "svn+ssh";
    "ws"; "wss" ].

Definition uses_netloc : list string :=
  [ ""; "ftp"; "http"; "gopher"; "nntp"; "telnet"; "imap"; "wais"; "file";
    "mms"; "https"; "shttp"; "snews"; "prospero"; "rtsp"; "rtspu"; "rsync";
    "svn"; "svn+ssh"; "sftp"; "nfs"; "git"; "git+ssh"; "ws"; "wss" ].

Definition uses_params : list string :=
  [ ""; "ftp"; "hdl"; "prospero"; "http"; "imap"; "https"; "shttp"; "rtsp";
    "rtspu"; "sip"; "sips"; "mms"; "sftp"; "tel" ].

Definition mem (s : string) (l : list string) : bool :=
  existsb (String.eqb s) l.

Definition scheme_char (c : ascii) : bool :=
  Py.isascii_alpha c || Py.isdigit c
  || Ascii.eqb c "+" || Ascii.eqb c "-" || Ascii.eqb c ".".

Definition c0_control_or_space (c : ascii) : bool := (Py.ord c <=? 32)%N.

(** Removal of tab, carriage return and newline. *)
Definition remove_unsafe (s : string) : string :=
  Py.remove_char "010" (Py.remove_char "013" (Py.remove_char "009" s)).

Definition strip (p : ascii → bool) (s : string) : string :=
  String.rev (Py.lstrip p (String.rev (Py.lstrip p s))).

Record SplitResult := mkSplit {
  s_scheme : string; s_netloc : string; s_path : string;
  s_query : string; s_fragment : string }.

Record ParseResult := mkParse {
  scheme : string; netloc : string; path : string;
  params : string; query : string; fragment : string }.

(** The scheme prefix: [url[:i]] up to the first colon when it starts
    with a letter and holds scheme characters only. *)
Definition split_scheme (url default : string) : string * string :=
  match Py.find ":" url with
  | Some (S i) =>
      match url with
      | String c _ =>
          if Py.isascii_alpha c && Py.all_chars scheme_char (Py.take (S i) url)
          then (Py.lower (Py.take (S i) url), Py.drop (S (S i)) url)
          else (default, url)
      | EmptyString => (default, url)
      end
  | _ => (default, url)
  end.

Definition is_delim (c : ascii) : bool :=
  Ascii.eqb c "/" || Ascii.eqb c "?" || Ascii.eqb c "#".

(** [_splitnetloc(url, 2)] *)
Definition splitnetloc (url : string) : string * string :=
  Py.span (λ c, negb (is_delim c)) (Py.drop 2 url).

(** The text after the last [c], or all of [s]: [s.rpartition(c)[2]]. *)
Definition after_last (c : ascii) (s : string) : string :=
  match Py.rfind c s with
  | Some i => Py.drop (S i) s
  | None => s
  end.

(** [_check_bracketed_host] returns without raising. *)
Definition check_bracketed_host (hostname : string) : bool :=
  if Py.startswith hostname "v" then
    match Py.span IpAddress.is_hex (Py.drop 1 hostname) with
    | (String _ _, String c r) =>
        Ascii.eqb c "." && Py.truthy r && negb (Py.has_char "010" r)
    | _ => false
    end
  else if IpAddress.valid_ipv4 hostname then false
  else IpAddress.valid_ipv6 hostname.

(** [_check_bracketed_netloc] returns without raising. *)
Definition check_bracketed_netloc (netloc : string) : bool :=
  let hostname_and_port := after_last "@" netloc in
  let '(before_bracket, have_open_br, bracketed) :=
    Py.partition "[" hostname_and_port in
  if have_open_br then
    if Py.truthy before_bracket then false
    else
      let '(hostname, _, port) := Py.partition "]" bracketed in
      if Py.truthy port && negb (Py.startswith port ":") then false
      else check_bracketed_host hostname
  else
    let '(hostname, _, _) := Py.partition ":" hostname_and_port in
    check_bracketed_host hostname.

Definition netloc_ok (netloc : string) : bool :=
  let o := Py.has_char "[" netloc in
  let c := Py.has_char "]" netloc in
  if o && c then check_bracketed_netloc netloc
  else negb (o || c).

(** [urlsplit(url, scheme)] with fragments allowed. *)
Definition urlsplit (url default : string) : option SplitResult :=
  let url := remove_unsafe (Py.lstrip c0_control_or_space url) in
  let default := remove_unsafe (strip c0_control_or_space default) in
  let '(sch, url) := split_scheme url default in
  let '(net, url) :=
    if Py.startswith url "//" then splitnetloc url else (EmptyString, url) in
  if netloc_ok net then
    let '(url, _, frag) := Py.partition "#" url in
    let '(url, _, q) := Py.partition "?" url in
    Some (mkSplit sch net url q frag)
  else None.

(** [_splitparams] *)
Definition splitparams (url : string) : string * string :=
  match Py.rfind "/" url with
  | Some j =>
      match Py.find ";" (Py.drop j url) with
      | Some k => (Py.take (j + k) url, Py.drop (S (j + k)) url)
      | None => (url, EmptyString)
      end
  | None =>
      match Py.find ";" url with
      | Some i => (Py.take i url, Py.drop (S i) url)
      | None =>
          (* [i = -1]: the slices [url[:-1]] and [url[0:]] *)
          (Py.take (String.length url - 1) url, url)
      end
  end.

(** [urlparse(url, scheme)] *)
Definition urlparse (url default : string) : option ParseResult :=
  match urlsplit url default with
  | None => None
  | Some (mkSplit sch net url q frag) =>
      if mem sch uses_params && Py.has_char ";" url then
        let '(url, prm) := splitparams url in
        Some (mkParse sch net url prm q frag)
      else Some (mkParse sch net url EmptyString q frag)
  end.

(** [urlunsplit] *)
Definition urlunsplit (sch net url q frag : string) : string :=
  let url :=
    if Py.truthy net
       || (Py.truthy sch && mem sch uses_netloc
           && negb (Py.startswith url "//"))
    then "//" +:+ net
         +:+ (if Py.truthy url && negb (Py.startswith url "/")
              then "/" +:+ url else url)
    else url in
  let url := if Py.truthy sch then sch +:+ ":" +:+ url else url in
  let url := if Py.truthy q then url +:+ "?" +:+ q else url in
  if Py.truthy frag then url +:+ "#" +:+ frag else url.

(** [urlunparse] *)
Definition urlunparse (r : ParseResult) : string :=
  let url :=
    if Py.truthy (params r) then path r +:+ ";" +:+ params r else path r in
  urlunsplit (scheme r) (netloc r) url (query r) (fragment r).

(** [segments[1:-1] = filter(None, segments[1:-1])] *)
Definition filter_middle (segments : list string) : list string :=
  match segments with
  | [] => []
  | [x] => [x]
  | x :: r => x :: filter (λ s, Py.truthy s = true) (removelast r)
                ++ [List.last r EmptyString]
  end.

(** The loop over the segments; [acc] is [resolved_path] reversed. *)
Fixpoint resolve_segments (acc segments : list string) : list string :=
  match segments with
  | [] => rev acc
  | seg :: rest =>
      if String.eqb seg ".." then resolve_segments (tail acc) rest
      else if String.eqb seg "." then resolve_segments acc rest
      else resolve_segments (seg :: acc) rest
  end.

(** [urljoin(base, url)] *)
Definition urljoin (base url : string) : option string :=
  if negb (Py.truthy base) then Some url
  else if negb (Py.truthy url) then Some base
  else
    match urlparse base EmptyString with
    | None => None
    | Some b =>
        match urlparse url (scheme b) with
        | None => None
        | Some u =>
            if negb (String.eqb (scheme u) (scheme b))
               || negb (mem (scheme u) uses_relative)
            then Some url
            else if mem (scheme u) uses_netloc && Py.truthy (netloc u)
            then Some (urlunparse u)
            else
              let net :=
                if mem (scheme u) uses_netloc then netloc b else netloc u in
              if negb (Py.truthy (path u)) && negb (Py.truthy (params u))
              then
                Some (urlunparse
                        (mkParse (scheme u) net (path b) (params b)
                           (if Py.truthy (query u) then query u else query b)
                           (fragment u)))
              else
                let base_parts :=
                  let bp := Py.split "/" (path b) in
                  if Py.truthy (List.last bp EmptyString)
                  then removelast bp else bp in
                let segments :=
                  if Py.startswith (path u) "/" then Py.split "/" (path u)
                  else filter_middle (base_parts ++ Py.split "/" (path u)) in
                let resolved_path :=
                  resolve_segments [] segments
                  ++ (let l := List.last segments EmptyString in
                      if String.eqb l "." || String.eqb l ".."
                      then [EmptyString] else []) in
                let joined := Py.join "/" resolved_path in
                Some (urlunparse
                        (mkParse (scheme u) net
                           (if Py.truthy joined then joined else "/")
                           (params u) (query u) (fragment u)))
        end
    end.

End UrlParse.

(** ** os.path on a POSIX system *)
Module PosixPath.

(** [os.path.splitext]: the extension starts at the last dot of the last
    component, unless only dots come before it in that component. *)
Definition splitext (p : string) : string * string :=
  let start := match Py.rfind "/" p with Some i => S i | None => O end in
  match Py.rfind "." p with
  | Some d =>
      if (start <=? d)%nat
         && negb (Py.all_chars (λ c, Ascii.eqb c ".")
                    (Py.take (d - start) (Py.drop start p)))
      then (Py.take d p, Py.drop d p)
      else (p, EmptyString)
  | None => (p, EmptyString)
  end.

(** [os.path.join(a, b)] *)
Definition join (a b : string) : string :=
  if Py.startswith b "/" then b
  else if negb (Py.truthy a) || Py.endswith a "/" then a +:+ b
  else a +:+ "/" +:+ b.

End PosixPath.

(** ** Python numbers

    A value a script returns is a JavaScript number.  It reaches Python
    as an [int] when it is integral and as a [float] otherwise; either
    denotes a rational.  The sum of two [int]s is exact.  In any other
    sum an [int] operand is first converted to a [float], and the result
    is the IEEE 754 binary64 sum: the exact sum rounded to the nearest
    double, ties to even.  A sum beyond the largest double is infinite
    in Python and a rational above every double here, so comparisons
    with a double agree. *)
Module PyNum.
Local Open Scope Z_scope.

(** [n / d] rounded to the nearest integer, ties to even; [0 < d]. *)
Definition round_half_even (n d : Z) : Z :=
  let q := n / d in
  let r2 := 2 * (n mod d) in
  if r2 <? d then q
  else if d <? r2 then q + 1
  else if Z.even q then q else q + 1.

(** [floor (log2 (n / d))] for [0 < n] and [0 < d]. *)
Definition floor_log2 (n d : Z) : Z :=
  let e := Z.log2 n - Z.log2 d in
  if n * 2 ^ Z.max 0 (- e) <? d * 2 ^ Z.max 0 e then e - 1 else e.

(** The double nearest to [q]: 53 significant bits, and no bit below
    [2^-1074]. *)
Definition round_double (q : Q) : Q :=
  let n := Z.abs (Qnum q) in
  let d := Zpos (Qden q) in
  if n =? 0 then 0%Q
  else
    let e := Z.max (floor_log2 n d - 52) (-1074) in
    let m := round_half_even (n * 2 ^ Z.max 0 (- e)) (d * 2 ^ Z.max 0 e) in
    let m := if Qnum q <? 0 then - m else m in
    if 0 <=? e then Qmake (m * 2 ^ e) 1
    else Qmake m (Z.to_pos (2 ^ (- e))).

Definition is_int (q : Q) : bool := Qnum q mod Zpos (Qden q) =? 0.

(** [a + b] *)
Definition add (a b : Q) : Q :=
  if is_int a && is_int b then (a + b)%Q
  else round_double (round_double a + round_double b)%Q.

End PyNum.

(** ** The snapshot extractor *)

(** What one [<img>] element contributes: [attrs] is the attribute
    dictionary BeautifulSoup gives for it. *)
Definition lazy_attrs : list string :=
  [ "data-original"; "data-lazy-src"; "data-url"; "data-lazysrc" ].

Definition add_if_present (attrs : gmap string string) (img_urls : gset string)
    (attr : string) : gset string :=
  match attrs !! attr with
  | Some v => img_urls ∪ {[ v ]}
  | None => img_urls
  end.

Definition extract_img (img_urls : gset string) (attrs : gmap string string)
  : gset string :=
  let img_urls :=
    match attrs !! "src" with
    | Some src => if Py.truthy src then img_urls ∪ {[ src ]} else img_urls
    | None => img_urls
    end in
  let img_urls :=
    match attrs !! "srcset" with
    | Some srcset =>
        if Py.truthy srcset
        then img_urls ∪ list_to_set (Re.findall Re.match_srcset srcset)
        else img_urls
    | None => img_urls
    end in
  let img_urls := add_if_present attrs img_urls "data-src" in
  foldl (add_if_present attrs) img_urls lazy_attrs.

(** What the [style] text of one selected element contributes. *)
Definition extract_style (img_urls : gset string) (style : string)
  : gset string :=
  img_urls ∪ list_to_set (Re.findall Re.match_css_url style).

(** The body of [extract_images_from_current_state] once the browser has
    answered: [imgs] are the [<img>] elements of the parsed page source,
    [styles] the [style] texts of the elements selected by
    [[style*='background-image']]. *)
Definition extract_from (imgs : list (gmap string string)) (styles : list string)
  : gset string :=
  foldl extract_style (foldl extract_img ∅ imgs) styles.

(** ** The render surface

    Every command of the browser session is a function on an arbitrary
    session state: the page may change between any two commands.  The
    numbers the scripts return are the rationals the JSON numbers
    denote; the commands themselves do not raise. *)
Class RenderSurface (D : Type) := {
  (** everything [get_image_urls_from_page] does before the scroll loop:
      clearing cookies and cache, navigation, the waits, the consent
      banner *)
  load_page : string → D → D;
  (** [BeautifulSoup(driver.page_source, "html.parser").find_all("img")] *)
  find_all_img : D → list (gmap string string) * D;
  (** [get_attribute("style")] of each element found by the selector *)
  find_styles : D → list string * D;
  (** [return document.body.scrollHeight] *)
  scroll_height : D → Q * D;
  (** [window.scrollBy(0, window.innerHeight * 0.8);] *)
  scroll_by : D → D;
  (** [return window.pageYOffset] *)
  page_y_offset : D → Q * D;
  (** [return window.innerHeight] *)
  inner_height : D → Q * D;
  (** [time.sleep(seconds)] *)
  sleep : Z → D → D;
}.

Section Harvest.
Context {D : Type} `{RenderSurface D}.

Definition extract_images_from_current_state (d : D) : gset string * D :=
  let '(imgs, d) := find_all_img d in
  let '(styles, d) := find_styles d in
  (extract_from imgs styles, d).

Definition max_scroll_attempts : nat := 5.
Definition scroll_pause_time : Z := 1.

(** The variables of the scroll loop; [steps] counts the executions of
    the loop body and is not a variable of the script. *)
Record LoopState := mkLoop {
  img_urls : gset string;
  last_height : Q;
  scroll_attempts : nat;
  steps : nat }.

(** One execution of the loop body; the boolean tells whether it ended
    in [break]. *)
Definition scroll_step (st : LoopState) (d : D) : LoopState * bool * D :=
  let '(new_urls, d) := extract_images_from_current_state d in
  let urls := img_urls st ∪ new_urls in
  let d := scroll_by d in
  let d := sleep scroll_pause_time d in
  let '(new_height, d) := scroll_height d in
  let '(current_position, d) := page_y_offset d in
  let continue d :=
    (mkLoop urls new_height (S (scroll_attempts st)) (S (steps st)),
     false, d) in
  if Qeq_bool new_height (last_height st) then
    let '(ih, d) := inner_height d in
    if Qle_bool new_height (PyNum.add current_position ih) then
      let d := sleep (scroll_pause_time * 2) d in
      let '(final_urls, d) := extract_images_from_current_state d in
      (mkLoop (urls ∪ final_urls) (last_height st) (scroll_attempts st)
         (S (steps st)), true, d)
    else continue d
  else continue d.

(** [while scroll_attempts < max_scroll_attempts: ...]; [None] when the
    fuel runs out before the loop ends. *)
Fixpoint scroll_loop (fuel : nat) (st : LoopState) (d : D)
  : option LoopState * D :=
  if (scroll_attempts st <? max_scroll_attempts)%nat then
    match fuel with
    | O => (None, d)
    | S fuel' =>
        let '(st', stop, d') := scroll_step st d in
        if stop then (Some st', d') else scroll_loop fuel' st' d'
    end
  else (Some st, d).

Definition get_image_urls_from_page (fuel : nat) (url : string) (d : D)
  : option LoopState * D :=
  let d := load_page url d in
  let '(h, d) := scroll_height d in
  scroll_loop fuel (mkLoop ∅ h 0 0) d.

End Harvest.

(** ** The classifier and the fetcher *)

Definition is_svg_image (url : string) (content_type : option string) : bool :=
  if Py.endswith (Py.lower url) ".svg" then true
  else if Py.contains (Py.lower url) "svg" then true
  else match content_type with
       | Some ct => Py.truthy ct && Py.contains (Py.lower ct) "svg"
       | None => false
       end.

(** A response of [requests]: the status code, the value of
    [headers.get('content-type', '')] and the body. *)
Record Response := mkResponse {
  status_code : Z;
  content_type : string;
  content : string }.

(** How lines 237-238 end: the file is written in full; [open] raises
    (a name that is too long, a missing or read-only directory) and no
    file appears; or [open] creates the file and [write] or the closing
    of the file raises with only the first [written] bytes on disk. *)
Inductive WriteResult :=
  | Written
  | OpenRaised
  | WriteRaised (written : nat).

(** What a call meets outside the process, as an oracle: the answers of
    the network, where [None] is a raised exception, and the answer of
    the operating system to the writing of [content] to [filepath].  An
    answer depends on the arguments only, not on the calls made
    before. *)
Record Network := mkNetwork {
  head : string → option Response;
  get : string → option Response;
  write_file : string → string → WriteResult }.

(** [raise_for_status] raises on a 4xx or 5xx status. *)
Definition raises_for_status (r : Response) : bool :=
  (400 <=? status_code r)%Z && (status_code r <? 600)%Z.

(** Network calls issued and files written in full, in order. *)
Inductive Event :=
  | EvHead (url : string)
  | EvGet (url : string)
  | EvWrite (filepath : string).

(** The ways [download_image] returns: the path of the saved file, or
    [None] from one of six places ([Failed] is the handler of lines
    242-244). *)
Inductive Outcome :=
  | Saved (filepath : string)
  | SkippedDataURI
  | SkippedVector
  | SkippedDuplicateOnDisk
  | Failed.

Definition return_value (o : Outcome) : option string :=
  match o with
  | Saved filepath => Some filepath
  | _ => None
  end.

(** The destination directory is the map from the paths that exist to
    their contents. *)
Record Result := mkResult {
  outcome : Outcome;
  trace : list Event;
  files : gmap string string }.

(** Lines 194-196: relative references are joined to the base. *)
Definition resolve (url base_url : string) : option string :=
  if Py.startswith url "http://" || Py.startswith url "https://"
     || Py.startswith url "data:"
  then Some url
  else UrlParse.urljoin base_url url.

(** Lines 218-224: the content-addressed path of a resolved URL. *)
Definition filepath_of (url save_dir : string) : option string :=
  let file_hash := MD5.hexdigest (Py.encode url) in
  match UrlParse.urlparse url EmptyString with
  | None => None
  | Some p =>
      let extension := snd (PosixPath.splitext (UrlParse.path p)) in
      let extension := if Py.truthy extension then extension else ".jpg" in
      let filename := file_hash +:+ extension in
      Some (PosixPath.join save_dir filename)
  end.

Definition download_image (net : Network) (fs : gmap string string)
    (url base_url save_dir : string) : Result :=
  match resolve url base_url with
  | None => mkResult Failed [] fs
  | Some url =>
      if Py.startswith url "data:" then mkResult SkippedDataURI [] fs
      else if is_svg_image url None then mkResult SkippedVector [] fs
      else
        let probe_says_svg :=
          match head net url with
          | Some head_response =>
              is_svg_image url (Some (content_type head_response))
          | None => false
          end in
        if probe_says_svg then mkResult SkippedVector [EvHead url] fs
        else
          match filepath_of url save_dir with
          | None => mkResult Failed [EvHead url] fs
          | Some filepath =>
              match fs !! filepath with
              | Some _ => mkResult SkippedDuplicateOnDisk [EvHead url] fs
              | None =>
                  match get net url with
                  | None => mkResult Failed [EvHead url; EvGet url] fs
                  | Some response =>
                      if raises_for_status response
                      then mkResult Failed [EvHead url; EvGet url] fs
                      else if is_svg_image url (Some (content_type response))
                      then mkResult SkippedVector [EvHead url; EvGet url] fs
                      else
                        match write_file net filepath (content response) with
                        | Written =>
                            mkResult (Saved filepath)
                              [EvHead url; EvGet url; EvWrite filepath]
                              (<[filepath := content response]> fs)
                        | OpenRaised =>
                            mkResult Failed [EvHead url; EvGet url] fs
                        | WriteRaised written =>
                            mkResult Failed [EvHead url; EvGet url]
                              (<[filepath :=
                                   Py.take written (content response)]> fs)
                        end
                  end
              end
          end
  end.

(** The truth value [main] tests: a non-empty path. *)
Definition is_download (o : Outcome) : bool :=
  match return_value o with
  | Some filepath => Py.truthy filepath
  | None => false
  end.

(** Lines 265-270 of [main]: the URLs in the order the set yields them.
    Returns [successful_downloads], the outcome of each call and the
    directory afterwards. *)
Fixpoint download_all (net : Network) (fs : gmap string string)
    (urls : list string) (base_url save_dir : string)
  : nat * list Outcome * gmap string string :=
  match urls with
  | [] => (O, [], fs)
  | img_url :: rest =>
      let r := download_image net fs img_url base_url save_dir in
      let '(n, os, fs') := download_all net (files r) rest base_url save_dir in
      ((if is_download (outcome r) then S n else n), outcome r :: os, fs')
  end.

(** The full retrieval of [url] raises: [requests.get] itself, or
    [raise_for_status] on its response. *)
Definition retrieval_raises (net : Network) (url : string) : Prop :=
  match get net url with
  | None => True
  | Some response => raises_for_status response = true
  end.

(** No write breaks off midway: a file is written in full or not
    created at all. *)
Definition write_is_atomic (net : Network) : Prop :=
  ∀ filepath content written,
    write_file net filepath content ≠ WriteRaised written.

(** An absolute HTTP or HTTPS URL, as line 195 tests it. *)
Definition is_http (s : string) : Prop :=
  Py.startswith s "http://" = true ∨ Py.startswith s "https://" = true.

(** ** Example networks, directories and pages *)

(** Every probe and every retrieval answers 200 with a PNG, and every
    file can be written. *)
Definition net_png : Network :=
  mkNetwork (λ _, Some (mkResponse 200 "image/png" ""))
            (λ _, Some (mkResponse 200 "image/png" "PNG"))
            (λ _ _, Written).

(** The probe raises; the retrieval answers 200 with SVG content. *)
Definition net_late_vector : Network :=
  mkNetwork (λ _, None)
            (λ _, Some (mkResponse 200 "image/svg+xml" "<svg/>"))
            (λ _ _, Written).

(** As [net_png], but the retrieval of one URL raises. *)
Definition net_one_down (bad : string) : Network :=
  mkNetwork (λ _, Some (mkResponse 200 "image/png" ""))
            (λ u, if String.eqb u bad then None
                  else Some (mkResponse 200 "image/png" "PNG"))
            (λ _ _, Written).


(** As [net_png], on a system whose file names hold at most 255 bytes:
    [open] raises on a longer last component. *)
Definition net_short_names : Network :=
  mkNetwork (λ _, Some (mkResponse 200 "image/png" ""))
            (λ _, Some (mkResponse 200 "image/png" "PNG"))
            (λ filepath _,
               match Py.rfind "/" filepath with
               | Some i =>
                   if (255 <? String.length filepath - S i)%nat
                   then OpenRaised else Written
               | None =>
                   if (255 <? String.length filepath)%nat
                   then OpenRaised else Written
               end).

(** A URL whose file name, 32 digits and an extension of 231 bytes, is
    longer than 255 bytes. *)
Definition url_with_long_extension : string :=
  "https://ex.com/a." +:+ String.concat EmptyString (replicate 230 "x").

(** As [net_png], on a full disk: the file is created and no byte of
    the body reaches it. *)
Definition net_disk_full : Network :=
  mkNetwork (λ _, Some (mkResponse 200 "image/png" ""))
            (λ _, Some (mkResponse 200 "image/png" "PNG"))
            (λ _ _, WriteRaised 0).

(** A destination directory that already holds the file of
    [https://ex.com/a.png]. *)
Definition disk_with_a_png : gmap string string :=
  {[ "images/c98b0c87944d062e1bacda2032deb838.png" := "PNG" ]}.

(** A page that never changes: the session state is the scroll offset,
    which [scroll_by] advances by 80 % of the viewport and the browser
    caps at the bottom of the document. *)
Record StaticPage := mkPage {
  doc_height : Q;
  viewport : Q;
  page_imgs : list (gmap string string);
  page_styles : list string }.

Definition static_surface (pg : StaticPage) : RenderSurface Q := {|
  load_page _ _ := 0%Q;
  find_all_img d := (page_imgs pg, d);
  find_styles d := (page_styles pg, d);
  scroll_height d := (doc_height pg, d);
  scroll_by d :=
    let target := (d + (8 # 10) * viewport pg)%Q in
    let bottom := (doc_height pg - viewport pg)%Q in
    if Qle_bool target bottom then target
    else if Qle_bool 0 bottom then bottom else 0%Q;
  page_y_offset d := (d, d);
  inner_height d := (viewport pg, d);
  sleep _ d := d |}.

(** The page of the scenario of the specification. *)
Definition scenario_page : StaticPage :=
  mkPage 2000 800
    [ {[ "src" := "/a.png" ]}; {[ "srcset" := "/b.png 1x, /c.png 2x" ]} ]
    [ "background-image:url('/d.jpg')" ].

(** A page without end: the session state is the document height, and
    every scroll loads another screen of content. *)
Definition endless_surface : RenderSurface Q := {|
  load_page _ _ := 1000%Q;
  find_all_img d := ([], d);
  find_styles d := ([], d);
  scroll_height d := (d, d);
  scroll_by d := (d + 1000)%Q;
  page_y_offset d := (d - 800, d)%Q;
  inner_height d := (800%Q, d);
  sleep _ d := d |}.

(** ** The consent banner and the run of [main] *)

(** What the browser answers about one element matched by the XPath of
    line 106: [is_displayed()] ([None] when the call raises) and whether
    the synthetic click goes through. *)
Record Button := mkButton {
  is_displayed : option bool;
  click_succeeds : bool }.

Inductive Consent :=
  | Accepted (index : nat)
  | NoBanner
  | ConsentFailed.

(** Lines 107-112: the buttons in document order; the first displayed
    one is clicked and the loop is left.  An exception ends the attempt
    (lines 113-114). *)
Fixpoint click_first_displayed (index : nat) (cookie_buttons : list Button)
  : Consent :=
  match cookie_buttons with
  | [] => NoBanner
  | button :: rest =>
      match is_displayed button with
      | None => ConsentFailed
      | Some true =>
          if click_succeeds button then Accepted index else ConsentFailed
      | Some false => click_first_displayed (S index) rest
      end
  end.

(** Lines 104-114: [find_elements] itself may raise. *)
Definition accept_cookies (found : option (list Button)) : Consent :=
  match found with
  | None => ConsentFailed
  | Some cookie_buttons => click_first_displayed 0 cookie_buttons
  end.

(** How [main] ends: with the two counts it prints (lines 262 and
    272), or in the handler of lines 274-276, which prints the error
    and exits with status 1. *)
Inductive RunResult :=
  | Reported (found successful_downloads : nat)
  | Errored.

(** Lines 257-276 of [main].  [harvest] is what lines 258-260 yield:
    the set [get_image_urls_from_page] returns, or [None] when the
    set-up of the browser, the harvest or [driver.quit] raises.  Every
    harvested reference is then downloaded with the page URL as base
    into [images]; [order] is the order in which the set yields its
    elements.  No exception leaves [download_image], so the loop runs to
    its end. *)
Definition main_run (order : gset string → list string) (net : Network)
    (fs : gmap string string) (url : string) (harvest : option (gset string))
  : RunResult * gmap string string :=
  match harvest with
  | None => (Errored, fs)
  | Some img_urls =>
      let '(successful_downloads, _, fs') :=
        download_all net fs (order img_urls) url "images" in
      (Reported (size img_urls) successful_downloads, fs')
  end.

(** * Properties *)

#[local] Arguments String.append !_ _ / : simpl nomatch.

(** ** The library models on known values *)

Example md5_known_values :
  MD5.hexdigest (Py.encode EmptyString) = "d41d8cd98f00b204e9800998ecf8427e"
  ∧ MD5.hexdigest (Py.encode "abc") = "900150983cd24fb0d6963f7d28e17f72"
  ∧ MD5.hexdigest (Py.encode "https://ex.com/a.png")
      = "c98b0c87944d062e1bacda2032deb838".
Proof. vm_compute. repeat split. Qed.

Example urljoin_known_values :
  UrlParse.urljoin "https://ex.com/blog/post" "../img/a.png"
    = Some "https://ex.com/img/a.png"
  ∧ UrlParse.urljoin "https://ex.com/blog/" "//cdn.ex.com/a.png?v=2#top"
      = Some "https://cdn.ex.com/a.png?v=2#top"
  ∧ UrlParse.urljoin "https://ex.com/a/b" "ftp://files.ex.com/x"
      = Some "ftp://files.ex.com/x"
  ∧ UrlParse.urljoin "x/y" "a" = Some "x/a"
  ∧ UrlParse.urljoin "https://ex.com/" "http://[::1" = None.
Proof. vm_compute. repeat split. Qed.

Example filepath_known_values :
  filepath_of "https://ex.com/a.png" "images"
    = Some "images/c98b0c87944d062e1bacda2032deb838.png"
  ∧ (λ u, snd (PosixPath.splitext u))
      <$> ["/a/b.tar.gz"; "/a.b/c"; "/.hidden"; "/img"]
    = [".gz"; EmptyString; EmptyString; EmptyString].
Proof. vm_compute. repeat split. Qed.

(** [0.9999999999999999 + 1024 == 1025.0], [0.1 + 0.2 ==
    0.30000000000000004] and [2 ** 53 + 1] as an [int]. *)
Example float_sum_known_values :
  Qeq_bool (PyNum.add (9007199254740991 # 9007199254740992) 1024) 1025 = true
  ∧ Qeq_bool (PyNum.add (3602879701896397 # 36028797018963968)
                (3602879701896397 # 18014398509481984))
      (1351079888211149 # 4503599627370496) = true
  ∧ Qeq_bool (PyNum.add 9007199254740992 1) 9007199254740993 = true.
Proof. vm_compute. repeat split. Qed.

Example css_url_known_values :
  Re.findall Re.match_css_url "background-image:url('/d.jpg')" = ["/d.jpg"]
  ∧ Re.findall Re.match_css_url "background-image: url(/e.jpg), url('')"
      = ["/e.jpg"].
Proof. vm_compute. repeat split. Qed.

(** ** Facts about the string primitives *)
Section StringFacts.
Implicit Types s p t : string.

Lemma append_assoc s p t : (s +:+ p) +:+ t = s +:+ (p +:+ t).
Proof. induction s as [|c s IH]; simpl; [done | by f_equal]. Qed.

Lemma startswith_app s p : Py.startswith (p +:+ s) p = true.
Proof.
  induction p as [|c p IH]; simpl; [done |].
  by rewrite Ascii.eqb_refl.
Qed.

Lemma startswith_inv s p :
  Py.startswith s p = true → ∃ t, s = p +:+ t.
Proof.
  revert s. induction p as [|c p IH]; intros s Hs; simpl in *.
  - by exists s.
  - destruct s as [|b s]; [done |].
    destruct (Ascii.eqb c b) eqn:E; [| done].
    apply Ascii.eqb_eq in E as ->.
    destruct (IH _ Hs) as [t ->]. by exists t.
Qed.

Lemma startswith_app_l s p t :
  Py.startswith s p = true → Py.startswith (s +:+ t) p = true.
Proof.
  intros [r ->]%startswith_inv. rewrite append_assoc.
  apply startswith_app.
Qed.

Lemma contains_intro s a b sub : s = a +:+ sub +:+ b → Py.contains s sub = true.
Proof.
  intros ->. induction a as [|c a IH]; simpl.
  - destruct sub; simpl; [by destruct b |].
    rewrite Ascii.eqb_refl, startswith_app. done.
  - rewrite IH. apply orb_true_r.
Qed.





Lemma take_drop n s : Py.take n s +:+ Py.drop n s = s.
Proof.
  revert s. induction n as [|n IH]; intros [|c s]; simpl; try done.
  by rewrite IH.
Qed.

Lemma endswith_inv s p : Py.endswith s p = true → ∃ a, s = a +:+ p.
Proof.
  unfold Py.endswith. intros [_ Heq]%andb_true_iff.
  apply String.eqb_eq in Heq.
  exists (Py.take (String.length s - String.length p) s).
  rewrite <- Heq at 2. by rewrite take_drop.
Qed.

End StringFacts.

(** ** The fetcher *)

(** Case analysis along the return points of [download_image]. *)
(** Membership in an explicit list of events. *)
Ltac trace_mem :=
  let e := fresh "e" in
  let He := fresh "He" in
  intros e He;
  repeat (apply elem_of_cons in He as [He | He]; [subst; try done |]);
  try (by apply elem_of_nil in He).

Ltac download_cases :=
  unfold download_image in *;
  repeat (case_match; simplify_eq;
          cbn [outcome trace files return_value] in *; try done).

Section Fetcher.
Implicit Types (net : Network) (fs : gmap string string).
Implicit Types (url base_url save_dir r p : string).

(** The directory only grows, and by one file at most: the saved file,
    or what a write that raised has left of it. *)
Lemma download_image_files net fs url base_url save_dir :
  let res := download_image net fs url base_url save_dir in
  (files res = fs ∧ ∀ p, outcome res ≠ Saved p)
  ∨ (∃ p c, outcome res = Saved p ∧ fs !! p = None
            ∧ files res = <[p := c]> fs)
  ∨ (∃ p c, outcome res = Failed ∧ fs !! p = None
            ∧ files res = <[p := c]> fs).
Proof.
  cbv zeta.
  download_cases;
    first [ left; done | right; left; by eauto | right; right; by eauto ].
Qed.

(** A call that changes the directory has retrieved a body without a
    4xx or 5xx status and started to write it to the free path of the
    resolved URL. *)
Lemma download_image_write_inv net fs url base_url save_dir :
  let res := download_image net fs url base_url save_dir in
  (files res = fs ∧ ∀ p, outcome res ≠ Saved p)
  ∨ ∃ r p resp,
      resolve url base_url = Some r
      ∧ filepath_of r save_dir = Some p
      ∧ fs !! p = None
      ∧ get net r = Some resp
      ∧ raises_for_status resp = false
      ∧ ((write_file net p (content resp) = Written
          ∧ outcome res = Saved p
          ∧ files res = <[p := content resp]> fs)
         ∨ ∃ written,
             write_file net p (content resp) = WriteRaised written
             ∧ outcome res = Failed
             ∧ files res = <[p := Py.take written (content resp)]> fs).
Proof.
  cbv zeta.
  download_cases; try (left; done); right; eexists _, _, _;
    (split_and!; [done.. |]); first [ left; done | right; by eauto ].
Qed.

Lemma download_image_dom net fs url base_url save_dir :
  dom fs ⊆ dom (files (download_image net fs url base_url save_dir)).
Proof.
  destruct (download_image_files net fs url base_url save_dir)
    as [[-> _] | [(p & c & _ & _ & ->) | (p & c & _ & _ & ->)]]; [done | |];
    rewrite dom_insert_L; apply union_subseteq_r.
Qed.

(** A file written by an earlier call, or by anyone, stops a later call
    from saving: with the same network the later call cannot return a
    path. *)
Lemma download_image_not_saved_later net fs fs' url base_url save_dir :
  dom (files (download_image net fs url base_url save_dir)) ⊆ dom fs' →
  let res' := download_image net fs' url base_url save_dir in
  return_value (outcome res') = None ∧ files res' = fs'.
Proof.
  intros Hdom. cbv zeta. revert Hdom.
  download_cases; intros Hdom;
    try match goal with
      | H : fs' !! ?p = None |- _ =>
          exfalso; apply not_elem_of_dom in H; apply H, Hdom;
          first [ by apply elem_of_dom | rewrite dom_insert_L; set_solver ]
      end.
Qed.

(** A call that finds its file in the directory. *)
Lemma download_image_existing_file net fs url base_url save_dir r p :
  resolve url base_url = Some r →
  filepath_of r save_dir = Some p →
  is_Some (fs !! p) →
  let res := download_image net fs url base_url save_dir in
  (∀ e, e ∈ trace res → e = EvHead r)
  ∧ files res = fs
  ∧ return_value (outcome res) = None
  ∧ (Py.startswith r "data:" = false →
     is_svg_image r None = false →
     (∀ hr, head net r = Some hr →
            is_svg_image r (Some (content_type hr)) = false) →
     outcome res = SkippedDuplicateOnDisk ∧ trace res = [EvHead r]).
Proof.
  intros Hr Hp [c Hc]. cbv zeta.
  unfold download_image. rewrite Hr, Hp, Hc.
  destruct (Py.startswith r "data:") eqn:Hdata.
  { cbn [outcome trace files return_value].
    split_and!; [trace_mem | done..]. }
  destruct (is_svg_image r None) eqn:Hsvg.
  { cbn [outcome trace files return_value].
    split_and!; [trace_mem | done..]. }
  destruct (head net r) as [hr|] eqn:Hhead.
  - destruct (is_svg_image r (Some (content_type hr))) eqn:Hct;
      cbn [outcome trace files return_value];
      (split_and!; [trace_mem | done | done |]).
    + intros _ _ Hprobe. specialize (Hprobe hr eq_refl). congruence.
    + done.
  - cbn [outcome trace files return_value].
    split_and!; [trace_mem | done..].
Qed.

(** C1, as amended.  When the content-addressed file of the resolved URL
    is already in the destination directory, [download_image] issues no
    full retrieval and writes nothing: the only network call it can
    make is the header probe.  Unless the URL is skipped as a data URI
    or as vector content (by its text or by the content type of the
    probe), the call ends at the duplicate-on-disk return having issued
    exactly the header probe. *)
Theorem download_image_file_on_disk net fs url base_url save_dir r p :
  resolve url base_url = Some r →
  filepath_of r save_dir = Some p →
  is_Some (fs !! p) →
  let res := download_image net fs url base_url save_dir in
  (∀ e, e ∈ trace res → e = EvHead r)
  ∧ files res = fs
  ∧ return_value (outcome res) = None
  ∧ (Py.startswith r "data:" = false →
     is_svg_image r None = false →
     (∀ hr, head net r = Some hr →
            is_svg_image r (Some (content_type hr)) = false) →
     outcome res = SkippedDuplicateOnDisk ∧ trace res = [EvHead r]).
Proof. apply download_image_existing_file. Qed.

Lemma download_image_file_on_disk_witness :
  let res := download_image net_png disk_with_a_png
               "/a.png" "https://ex.com/" "images" in
  (∀ e, e ∈ trace res → e = EvHead "https://ex.com/a.png")
  ∧ files res = disk_with_a_png
  ∧ return_value (outcome res) = None
  ∧ outcome res = SkippedDuplicateOnDisk
  ∧ trace res = [EvHead "https://ex.com/a.png"].
Proof.
  pose proof (download_image_file_on_disk net_png disk_with_a_png
                "/a.png" "https://ex.com/" "images"
                "https://ex.com/a.png"
                "images/c98b0c87944d062e1bacda2032deb838.png") as H.
  cbv zeta in H.
  destruct H as (H1 & H2 & H3 & H4).
  - vm_compute. reflexivity.
  - vm_compute. reflexivity.
  - exists "PNG". vm_compute. reflexivity.
  - destruct H4 as [H4 H5].
    + vm_compute. reflexivity.
    + vm_compute. reflexivity.
    + intros hr Hhr. vm_compute in Hhr. inversion Hhr. vm_compute. reflexivity.
    + repeat split; assumption.
Defined.

(** C1, the claim as stated fails: the file of [https://ex.com/a.png]
    is on disk, and the call still issues the header probe before it
    reaches the duplicate-on-disk return. *)
Lemma disk_duplicate_still_probes :
  filepath_of "https://ex.com/a.png" "images"
    = Some "images/c98b0c87944d062e1bacda2032deb838.png"
  ∧ disk_with_a_png !! "images/c98b0c87944d062e1bacda2032deb838.png"
      = Some "PNG"
  ∧ outcome (download_image net_png disk_with_a_png
               "https://ex.com/a.png" "https://ex.com/" "images")
      = SkippedDuplicateOnDisk
  ∧ trace (download_image net_png disk_with_a_png
             "https://ex.com/a.png" "https://ex.com/" "images")
      = [EvHead "https://ex.com/a.png"]
  ∧ trace (download_image net_png disk_with_a_png
             "https://ex.com/a.png" "https://ex.com/" "images") ≠ [].
Proof. vm_compute. repeat split; discriminate. Qed.

(** What a call that returns a path has gone through. *)
Lemma download_image_saved_inv net fs url base_url save_dir p :
  outcome (download_image net fs url base_url save_dir) = Saved p →
  ∃ r resp,
    resolve url base_url = Some r
    ∧ Py.startswith r "data:" = false
    ∧ is_svg_image r None = false
    ∧ (∀ hr, head net r = Some hr →
             is_svg_image r (Some (content_type hr)) = false)
    ∧ filepath_of r save_dir = Some p
    ∧ fs !! p = None
    ∧ get net r = Some resp
    ∧ raises_for_status resp = false
    ∧ is_svg_image r (Some (content_type resp)) = false
    ∧ files (download_image net fs url base_url save_dir)
        = <[p := content resp]> fs
    ∧ trace (download_image net fs url base_url save_dir)
        = [EvHead r; EvGet r; EvWrite p].
Proof.
  download_cases; intros [= <-]; eexists _, _; split_and!; try done;
    intros hr Hhr; congruence.
Qed.




(** C4, as amended.  Two calls of [download_image] for the same URL,
    base URL and destination directory, the second on the directory the
    first one left: at most one of them returns a path.  When the first
    saved the file the second issues no retrieval, writes nothing and
    returns [None]; if moreover the header probe answers as before it
    ends at the duplicate-on-disk return.  The networks of the two runs
    may differ. *)
Theorem fetch_twice_saves_once net1 net2 fs url base_url save_dir :
  let r1 := download_image net1 fs url base_url save_dir in
  let r2 := download_image net2 (files r1) url base_url save_dir in
  (∀ p, outcome r1 = Saved p →
        (∀ e, e ∈ trace r2 → ∃ u, e = EvHead u)
        ∧ files r2 = files r1
        ∧ return_value (outcome r2) = None
        ∧ ((∀ u, head net2 u = head net1 u) →
           outcome r2 = SkippedDuplicateOnDisk))
  ∧ ¬ (∃ p1 p2, outcome r1 = Saved p1 ∧ outcome r2 = Saved p2).
Proof.
  cbv zeta.
  assert (∀ p, outcome (download_image net1 fs url base_url save_dir)
                 = Saved p →
    (∀ e, e ∈ trace (download_image net2
                       (files (download_image net1 fs url base_url save_dir))
                       url base_url save_dir) → ∃ u, e = EvHead u)
    ∧ files (download_image net2
               (files (download_image net1 fs url base_url save_dir))
               url base_url save_dir)
        = files (download_image net1 fs url base_url save_dir)
    ∧ return_value (outcome (download_image net2
               (files (download_image net1 fs url base_url save_dir))
               url base_url save_dir)) = None
    ∧ ((∀ u, head net2 u = head net1 u) →
       outcome (download_image net2
               (files (download_image net1 fs url base_url save_dir))
               url base_url save_dir) = SkippedDuplicateOnDisk)) as Hfirst.
  { intros p Hsaved.
    destruct (download_image_saved_inv _ _ _ _ _ _ Hsaved)
      as (r & resp & Hr & Hdata & Hsvg & Hprobe & Hp & _ & _ & _ & _
          & Hfiles & _).
    rewrite Hfiles.
    destruct (download_image_existing_file net2 (<[p := content resp]> fs)
                url base_url save_dir r p Hr Hp) as (Ht & Hf & Hret & Hdup).
    { rewrite lookup_insert_eq. by eexists. }
    split_and!; [| done | done |].
    - intros e He. exists r. by apply Ht.
    - intros Hsame. apply Hdup; [done | done |].
      intros hr Hhr. rewrite Hsame in Hhr. by apply Hprobe. }
  split; [done |].
  intros (p1 & p2 & H1 & H2).
  destruct (Hfirst p1 H1) as (_ & _ & Hret & _).
  rewrite H2 in Hret. done.
Qed.

Lemma fetch_twice_saves_once_witness :
  outcome (download_image net_png ∅ "/a.png" "https://ex.com/" "images")
    = Saved "images/c98b0c87944d062e1bacda2032deb838.png"
  ∧ outcome (download_image net_png
               (files (download_image net_png ∅ "/a.png" "https://ex.com/"
                         "images"))
               "/a.png" "https://ex.com/" "images")
      = SkippedDuplicateOnDisk.
Proof.
  assert (outcome (download_image net_png ∅ "/a.png" "https://ex.com/"
                     "images")
          = Saved "images/c98b0c87944d062e1bacda2032deb838.png") as H1.
  { vm_compute. reflexivity. }
  split; [exact H1 |].
  destruct (fetch_twice_saves_once net_png net_png ∅ "/a.png"
              "https://ex.com/" "images") as [H _].
  destruct (H _ H1) as (_ & _ & _ & Hdup).
  apply Hdup. reflexivity.
Defined.

(** C4, the claim as stated fails: the probe raises and the retrieval
    succeeds with SVG content, which the final check discards without
    writing a file; the second run finds no file and retrieves the same
    body again.  Both retrievals were successful. *)
Lemma discarded_retrieval_is_repeated :
  get net_late_vector "https://ex.com/logo"
    = Some (mkResponse 200 "image/svg+xml" "<svg/>")
  ∧ raises_for_status (mkResponse 200 "image/svg+xml" "<svg/>") = false
  ∧ trace (download_image net_late_vector ∅ "https://ex.com/logo"
             "https://ex.com/" "images")
      = [EvHead "https://ex.com/logo"; EvGet "https://ex.com/logo"]
  ∧ files (download_image net_late_vector ∅ "https://ex.com/logo"
             "https://ex.com/" "images") = ∅
  ∧ trace (download_image net_late_vector
             (files (download_image net_late_vector ∅ "https://ex.com/logo"
                       "https://ex.com/" "images"))
             "https://ex.com/logo" "https://ex.com/" "images")
      = [EvHead "https://ex.com/logo"; EvGet "https://ex.com/logo"].
Proof. vm_compute. repeat split. Qed.

(** *** The download loop *)

Lemma download_all_cons net fs u l base_url save_dir :
  download_all net fs (u :: l) base_url save_dir
  = let r := download_image net fs u base_url save_dir in
    let rest := download_all net (files r) l base_url save_dir in
    ((if is_download (outcome r) then S rest.1.1 else rest.1.1),
     outcome r :: rest.1.2, rest.2).
Proof.
  cbn [download_all]. cbv zeta.
  by destruct (download_all net _ l base_url save_dir) as [[n os] fs'].
Qed.

Lemma download_all_app net fs l1 l2 base_url save_dir :
  download_all net fs (l1 ++ l2) base_url save_dir
  = let a := download_all net fs l1 base_url save_dir in
    let b := download_all net a.2 l2 base_url save_dir in
    ((a.1.1 + b.1.1)%nat, a.1.2 ++ b.1.2, b.2).
Proof.
  revert fs. induction l1 as [|u l1 IH]; intros fs.
  - cbn [app download_all]. cbv zeta. cbn [fst snd app Nat.add].
    by destruct (download_all net fs l2 base_url save_dir) as [[n os] fs'].
  - rewrite <- app_comm_cons, !download_all_cons. cbv zeta.
    rewrite IH. cbv zeta. cbn [fst snd].
    by destruct (is_download _).
Qed.

Lemma download_all_length net fs l base_url save_dir :
  length (download_all net fs l base_url save_dir).1.2 = length l.
Proof.
  revert fs. induction l as [|u l IH]; intros fs; [done |].
  rewrite download_all_cons. cbv zeta. cbn [fst snd length].
  by rewrite IH.
Qed.

Lemma download_all_dom net fs l base_url save_dir :
  dom fs ⊆ dom (download_all net fs l base_url save_dir).2.
Proof.
  revert fs. induction l as [|u l IH]; intros fs; [done |].
  rewrite download_all_cons. cbv zeta. cbn [snd].
  etrans; [apply download_image_dom | apply IH].
Qed.

Lemma is_download_None o : return_value o = None → is_download o = false.
Proof. unfold is_download. by intros ->. Qed.

(** A retrieval that raises ends the call at [Failed] and leaves the
    directory alone. *)
Lemma download_image_retrieval_raises net fs url base_url save_dir r :
  EvGet r ∈ trace (download_image net fs url base_url save_dir) →
  retrieval_raises net r →
  outcome (download_image net fs url base_url save_dir) = Failed
  ∧ files (download_image net fs url base_url save_dir) = fs.
Proof.
  unfold retrieval_raises.
  download_cases; intros He;
    repeat (apply elem_of_cons in He as [He | He]; simplify_eq);
    try (by apply elem_of_nil in He);
    intros Hraise; simplify_eq; try done; congruence.
Qed.

(** With the files of an earlier run over the same URLs in place, and
    the same network, nothing is downloaded. *)
Lemma download_all_nothing_new net fs fs' l base_url save_dir :
  dom (download_all net fs l base_url save_dir).2 ⊆ dom fs' →
  (download_all net fs' l base_url save_dir).1.1 = O
  ∧ Forall (λ o, return_value o = None)
      (download_all net fs' l base_url save_dir).1.2
  ∧ (download_all net fs' l base_url save_dir).2 = fs'.
Proof.
  revert fs. induction l as [|u l IH]; intros fs Hdom.
  { cbn. by split_and!. }
  rewrite download_all_cons in Hdom. cbv zeta in Hdom. cbn [snd] in Hdom.
  destruct (download_image_not_saved_later net fs fs' u base_url save_dir)
    as [Hret Hfiles].
  { etrans; [apply download_all_dom | exact Hdom]. }
  rewrite download_all_cons. cbv zeta. cbn [fst snd].
  rewrite Hfiles, (is_download_None _ Hret).
  destruct (IH _ Hdom) as (Hn & Hos & Hfs).
  split_and!; [done | by constructor | done].
Qed.

(** C5.  Isolation.  In a batch [l1 ++ u :: l2] where the retrieval of
    [u] is issued and raises, the exception does not leave
    [download_image]: the loop yields one outcome per URL, the one of
    [u] is [Failed], and the outcomes of the other URLs, the count of
    downloads and the directory are those of the batch [l1 ++ l2]. *)
Theorem batch_isolation net fs l1 u l2 base_url save_dir r :
  let before := download_all net fs l1 base_url save_dir in
  let batch := download_all net fs (l1 ++ u :: l2) base_url save_dir in
  let others := download_all net fs (l1 ++ l2) base_url save_dir in
  EvGet r ∈ trace (download_image net before.2 u base_url save_dir) →
  retrieval_raises net r →
  length batch.1.2 = length (l1 ++ u :: l2)
  ∧ batch.1.2 !! length l1 = Some Failed
  ∧ batch.1.2
      = take (length l1) others.1.2 ++ Failed :: drop (length l1) others.1.2
  ∧ batch.1.1 = others.1.1
  ∧ batch.2 = others.2.
Proof.
  cbv zeta. intros Hget Hraise.
  destruct (download_image_retrieval_raises _ _ _ _ _ _ Hget Hraise)
    as [Hout Hfiles].
  split; [apply download_all_length |].
  rewrite !download_all_app. cbv zeta. cbn [fst snd].
  rewrite download_all_cons. cbv zeta. cbn [fst snd].
  rewrite Hout, Hfiles. cbn [is_download return_value].
  pose proof (download_all_length net fs l1 base_url save_dir) as Hlen.
  split_and!; [| | done | done].
  - rewrite lookup_app_r by lia. by rewrite Hlen, Nat.sub_diag.
  - rewrite take_app_length' by done.
    rewrite drop_app_length' by done. done.
Qed.

Lemma batch_isolation_witness :
  (download_all (net_one_down "https://ex.com/b.png") ∅
     ["/a.png"; "/b.png"; "/c.png"] "https://ex.com/" "images").1.2
  = take 1 (download_all (net_one_down "https://ex.com/b.png") ∅
              ["/a.png"; "/c.png"] "https://ex.com/" "images").1.2
    ++ Failed
    :: drop 1 (download_all (net_one_down "https://ex.com/b.png") ∅
                 ["/a.png"; "/c.png"] "https://ex.com/" "images").1.2.
Proof.
  apply (batch_isolation (net_one_down "https://ex.com/b.png") ∅
           ["/a.png"] "/b.png" ["/c.png"] "https://ex.com/" "images"
           "https://ex.com/b.png").
  - vm_compute. apply list_elem_of_further, list_elem_of_here.
  - vm_compute. exact I.
Defined.

(** C9.  [download_image] returns [None] at the duplicate-on-disk return
    as it does for skipped data URIs, skipped vector content and
    failures, so the count of [main] leaves files already on disk out:
    a second run over the same URLs on the directory the first run left
    counts zero downloads and returns [None] for every URL, and so does
    any run that finds the file of every URL in place. *)
Theorem second_run_counts_nothing net net2 fs urls base_url save_dir :
  (return_value SkippedDuplicateOnDisk = None
   ∧ return_value SkippedDataURI = None
   ∧ return_value SkippedVector = None
   ∧ return_value Failed = None)
  ∧ (let run1 := download_all net fs urls base_url save_dir in
     let run2 := download_all net run1.2 urls base_url save_dir in
     run2.1.1 = O
     ∧ Forall (λ o, return_value o = None) run2.1.2
     ∧ run2.2 = run1.2)
  ∧ ((∀ u r p, u ∈ urls → resolve u base_url = Some r →
               filepath_of r save_dir = Some p → is_Some (fs !! p)) →
     let run := download_all net2 fs urls base_url save_dir in
     run.1.1 = O
     ∧ Forall (λ o, return_value o = None) run.1.2
     ∧ run.2 = fs).
Proof.
  split; [done |]. split.
  - cbv zeta. by apply (download_all_nothing_new net fs).
  - cbv zeta. induction urls as [|u l IH]; intros Hdisk.
    { cbn. by split_and!. }
    assert (return_value (outcome (download_image net2 fs u base_url
                                     save_dir)) = None
            ∧ files (download_image net2 fs u base_url save_dir) = fs)
      as [Hret Hfiles].
    { destruct (download_image_write_inv net2 fs u base_url save_dir)
        as [[Hf Hn] | (r & p & resp & Hr & Hp & Hnone & _)].
      - split; [| done].
        destruct (outcome _) eqn:Ho; try done. by destruct (Hn filepath).
      - destruct (Hdisk u r p) as [x Hx]; [apply list_elem_of_here | done..|].
        congruence. }
    rewrite download_all_cons. cbv zeta. cbn [fst snd].
    rewrite Hfiles, (is_download_None _ Hret).
    destruct IH as (Hn & Hos & Hfs).
    { intros u' r p Hu'. apply Hdisk. by apply list_elem_of_further. }
    split_and!; [done | by constructor | done].
Qed.

Lemma second_run_counts_nothing_witness :
  (download_all net_png ∅ ["/a.png"; "/b.png"] "https://ex.com/" "images").1.1
    = 2%nat
  ∧ (download_all net_png disk_with_a_png ["/a.png"; "https://ex.com/a.png"]
       "https://ex.com/" "images").1.1 = O.
Proof.
  split; [vm_compute; reflexivity |].
  destruct (second_run_counts_nothing net_png net_png disk_with_a_png
              ["/a.png"; "https://ex.com/a.png"] "https://ex.com/" "images")
    as (_ & _ & H).
  apply H. intros u r p Hu Hr Hp.
  assert (r = "https://ex.com/a.png") as ->.
  { apply elem_of_cons in Hu as [-> | Hu].
    - vm_compute in Hr. by injection Hr as <-.
    - apply list_elem_of_singleton in Hu as ->.
      vm_compute in Hr. by injection Hr as <-. }
  vm_compute in Hp. injection Hp as <-.
  exists "PNG". vm_compute. reflexivity.
Defined.

End Fetcher.

(** ** The extractor *)
Section Extractor.
Implicit Types (attrs : gmap string string) (acc : gset string).

Lemma add_if_present_mono attrs acc attr :
  acc ⊆ add_if_present attrs acc attr.
Proof. unfold add_if_present. case_match; set_solver. Qed.

Lemma add_if_present_elem attrs acc attr v :
  attrs !! attr = Some v → v ∈ add_if_present attrs acc attr.
Proof. unfold add_if_present. intros ->. set_solver. Qed.

Lemma foldl_add_if_present_mono attrs acc l :
  acc ⊆ foldl (add_if_present attrs) acc l.
Proof.
  revert acc. induction l as [|a l IH]; intros acc; [done |].
  cbn [foldl]. etrans; [apply (add_if_present_mono attrs acc a) | apply IH].
Qed.

Lemma foldl_add_if_present_elem attrs acc l attr v :
  attr ∈ l → attrs !! attr = Some v →
  v ∈ foldl (add_if_present attrs) acc l.
Proof.
  revert acc. induction l as [|a l IH]; intros acc Hin Hv.
  - by apply elem_of_nil in Hin.
  - cbn [foldl]. apply elem_of_cons in Hin as [-> | Hin].
    + apply (foldl_add_if_present_mono attrs _ l).
      by apply add_if_present_elem.
    + by apply IH.
Qed.

(** C10.  An empty [src] or [srcset] contributes nothing: the element
    yields what it yields without that attribute.  Each of [data-src],
    [data-original], [data-lazy-src], [data-url] and [data-lazysrc]
    contributes its value whenever it is present, the empty string
    included: [<img data-src="">] yields the empty reference. *)
Theorem empty_src_skipped_lazy_kept acc attrs attr v :
  (attrs !! "src" = Some "" →
     extract_img acc attrs = extract_img acc (delete "src" attrs))
  ∧ (attrs !! "srcset" = Some "" →
     extract_img acc attrs = extract_img acc (delete "srcset" attrs))
  ∧ (attr ∈ "data-src" :: lazy_attrs → attrs !! attr = Some v →
     v ∈ extract_img acc attrs)
  ∧ extract_from [ {[ "data-src" := "" ]} ] [] = {[ "" ]}
  ∧ extract_from [ {[ "src" := ""; "srcset" := "" ]} ] [] = ∅.
Proof.
  split_and!.
  - intros Hsrc. unfold extract_img, add_if_present, lazy_attrs.
    cbn [foldl]. rewrite Hsrc, lookup_delete_eq.
    by rewrite !lookup_delete_ne by done.
  - intros Hsrcset. unfold extract_img, add_if_present, lazy_attrs.
    cbn [foldl]. rewrite Hsrcset, lookup_delete_eq.
    by rewrite !lookup_delete_ne by done.
  - intros Hin Hv. unfold extract_img.
    apply elem_of_cons in Hin as [-> | Hin].
    + apply foldl_add_if_present_mono. by apply add_if_present_elem.
    + by apply foldl_add_if_present_elem with (attr := attr).
  - vm_compute. reflexivity.
  - vm_compute. reflexivity.
Qed.

Lemma empty_src_skipped_lazy_kept_witness :
  extract_img ∅ {[ "src" := ""; "alt" := "x" ]}
    = extract_img ∅ (delete "src" {[ "src" := ""; "alt" := "x" ]})
  ∧ "" ∈ extract_img ∅ {[ "data-lazy-src" := "" ]}.
Proof.
  split.
  - destruct (empty_src_skipped_lazy_kept ∅ {[ "src" := ""; "alt" := "x" ]}
                "" "") as (H & _).
    apply H. vm_compute. reflexivity.
  - destruct (empty_src_skipped_lazy_kept ∅ {[ "data-lazy-src" := "" ]}
                "data-lazy-src" "") as (_ & _ & H & _).
    apply H.
    + unfold lazy_attrs. do 2 apply list_elem_of_further.
      apply list_elem_of_here.
    + vm_compute. reflexivity.
Defined.

(** C8, the code at inputs where it departs from the claim.  The
    candidates of the claim's example come out with their descriptors
    stripped; but a candidate without descriptor keeps the comma that
    follows it, and a fractional density descriptor is collected as a
    reference of its own. *)
Theorem srcset_extraction_examples :
  Re.findall Re.match_srcset "/b.png 1x, /c.png 2x" = ["/b.png"; "/c.png"]
  ∧ Re.findall Re.match_srcset "/b.png, /c.png" = ["/b.png,"; "/c.png"]
  ∧ Re.findall Re.match_srcset "a.png 1.5x, b.png 2x"
      = ["a.png"; "1.5x,"; "b.png"]
  ∧ "/b.png," ∈ extract_img ∅ {[ "srcset" := "/b.png, /c.png" ]}
  ∧ ("/b.png" ∉ extract_img ∅ {[ "srcset" := "/b.png, /c.png" ]})
  ∧ "1.5x," ∈ extract_img ∅ {[ "srcset" := "a.png 1.5x, b.png 2x" ]}.
Proof.
  split_and!;
    first [ vm_compute; reflexivity
          | apply (bool_decide_unpack _); vm_compute; exact I ].
Qed.

End Extractor.

(** ** The harvester *)
Section HarvestFacts.
Context {D : Type} `{RenderSurface D}.
Implicit Types (st : LoopState) (d : D).

(** One execution of the loop body: it is counted, it either stops or
    uses up one attempt, and it adds to the set what the extractor
    returned, as returned. *)
Lemma scroll_step_spec st d :
  let st' := (scroll_step st d).1.1 in
  let stop := (scroll_step st d).1.2 in
  steps st' = S (steps st)
  ∧ scroll_attempts st'
      = (if stop then scroll_attempts st else S (scroll_attempts st))
  ∧ img_urls st ∪ (extract_images_from_current_state d).1 ⊆ img_urls st'.
Proof.
  cbv zeta. unfold scroll_step.
  repeat (case_match; simplify_eq;
          cbn [fst snd steps scroll_attempts img_urls]);
    split_and!; try done; apply union_subseteq_l.
Qed.

Lemma scroll_loop_S fuel st d :
  scroll_loop (S fuel) st d
  = if (scroll_attempts st <? max_scroll_attempts)%nat then
      let '(st', stop, d') := scroll_step st d in
      if stop then (Some st', d') else scroll_loop fuel st' d'
    else (Some st, d).
Proof. reflexivity. Qed.

Lemma scroll_loop_terminates fuel st d :
  max_scroll_attempts - scroll_attempts st ≤ fuel →
  ∃ st' d',
    scroll_loop fuel st d = (Some st', d')
    ∧ steps st' ≤ steps st + (max_scroll_attempts - scroll_attempts st)
    ∧ (scroll_attempts st ≤ max_scroll_attempts →
       scroll_attempts st' ≤ max_scroll_attempts)
    ∧ img_urls st ⊆ img_urls st'
    ∧ ∀ fuel', fuel ≤ fuel' → scroll_loop fuel' st d = (Some st', d').
Proof.
  revert st d. induction fuel as [|fuel IH]; intros st d Hfuel.
  - exists st, d. cbn [scroll_loop].
    destruct (scroll_attempts st <? max_scroll_attempts)%nat eqn:E.
    { apply Nat.ltb_lt in E. lia. }
    pose proof (proj1 (Nat.ltb_ge _ _) E) as Hge.
    split_and!; [done | lia | done | done |].
    intros fuel' _. destruct fuel'; cbn [scroll_loop]; by rewrite E.
  - cbn [scroll_loop].
    destruct (scroll_attempts st <? max_scroll_attempts)%nat eqn:E.
    2:{ exists st, d. pose proof (proj1 (Nat.ltb_ge _ _) E) as Hge.
        split_and!; [done | lia | done | done |].
        intros fuel' _. destruct fuel'; cbn [scroll_loop]; by rewrite E. }
    apply Nat.ltb_lt in E.
    pose proof (scroll_step_spec st d) as Hstep. cbv zeta in Hstep.
    destruct (scroll_step st d) as [[st1 stop] d1] eqn:Es.
    cbn [fst snd] in Hstep. destruct Hstep as (Hsteps & Hatt & Hurls).
    destruct stop.
    + exists st1, d1.
      split_and!; [done | lia | lia | by etrans; [apply union_subseteq_l |] |].
      intros [|fuel'] Hle; [lia |]. cbn [scroll_loop].
      apply Nat.ltb_lt in E. by rewrite E, Es.
    + destruct (IH st1 d1) as (st' & d' & Hloop & Hs & Ha & Hu & Hf);
        [lia |].
      exists st', d'.
      split_and!;
        [done | lia | lia
        | by etrans; [etrans; [apply union_subseteq_l | exact Hurls] |] |].
      intros [|fuel'] Hle; [lia |]. cbn [scroll_loop].
      apply Nat.ltb_lt in E. rewrite E, Es. apply Hf. lia.
Qed.

(** C6.  Whatever the page does, the scroll loop ends: with fuel for
    [max_scroll_attempts] (five) executions of its body the harvest
    returns a result, which more fuel does not change, and the body has
    run at most five times. *)
Theorem harvest_terminates_within_bound (fuel : nat) (url : string) d :
  max_scroll_attempts ≤ fuel →
  ∃ st d',
    get_image_urls_from_page fuel url d = (Some st, d')
    ∧ steps st ≤ 5
    ∧ scroll_attempts st ≤ 5
    ∧ get_image_urls_from_page max_scroll_attempts url d = (Some st, d').
Proof.
  intros Hfuel. unfold get_image_urls_from_page.
  destruct (scroll_height (load_page url d)) as [h d0].
  destruct (scroll_loop_terminates max_scroll_attempts (mkLoop ∅ h 0 0) d0)
    as (st & d' & Hloop & Hsteps & Hatt & _ & Hmore).
  { cbn [scroll_attempts]. lia. }
  exists st, d'. cbn [steps scroll_attempts] in *.
  unfold max_scroll_attempts in *.
  split_and!; [by apply Hmore | lia | lia | done].
Qed.

(** The accumulated set never shrinks. *)
Lemma scroll_step_monotone st d :
  img_urls st ⊆ img_urls (scroll_step st d).1.1.
Proof.
  pose proof (scroll_step_spec st d) as (_ & _ & Hsub).
  etrans; [apply union_subseteq_l | exact Hsub].
Qed.

End HarvestFacts.

(** C6 on the page without end: the height grows at every step, the
    stopping condition is never met, and the loop leaves after exactly
    five executions of its body. *)
Lemma harvest_terminates_within_bound_witness :
  ∃ st d',
    @get_image_urls_from_page Q endless_surface 7 "https://ex.com/" 0%Q
      = (Some st, d')
    ∧ steps st ≤ 5
    ∧ scroll_attempts st ≤ 5
    ∧ @get_image_urls_from_page Q endless_surface max_scroll_attempts
        "https://ex.com/" 0%Q = (Some st, d').
Proof.
  apply (@harvest_terminates_within_bound Q endless_surface 7).
  unfold max_scroll_attempts. lia.
Defined.

Lemma endless_page_takes_five_steps :
  (λ st, (steps st, scroll_attempts st))
    <$> (@get_image_urls_from_page Q endless_surface 5 "https://ex.com/" 0%Q).1
  = Some (5, 5).
Proof. vm_compute. reflexivity. Qed.

(** *** Pages that do not change *)
Section StaticPages.
Variable pg : StaticPage.

Lemma static_scroll_step (st : LoopState) (d : Q) :
  img_urls (@scroll_step Q (static_surface pg) st d).1.1
  = img_urls st ∪ extract_from (page_imgs pg) (page_styles pg).
Proof.
  unfold scroll_step, extract_images_from_current_state.
  cbn [find_all_img find_styles scroll_height page_y_offset inner_height
       sleep scroll_by static_surface].
  repeat case_match; simplify_eq; cbn [fst snd img_urls]; try done;
    by rewrite <- (assoc_L (∪)), (idemp_L (∪)).
Qed.

Lemma static_scroll_loop (fuel : nat) (st st' : LoopState) (d d' : Q) :
  @scroll_loop Q (static_surface pg) fuel st d = (Some st', d') →
  img_urls st = extract_from (page_imgs pg) (page_styles pg) →
  img_urls st' = extract_from (page_imgs pg) (page_styles pg).
Proof.
  revert st d. induction fuel as [|fuel IH]; intros st d; cbn [scroll_loop].
  - case_match; [done |]. by intros [= <- <-].
  - case_match; [| by intros [= <- <-]].
    pose proof (static_scroll_step st d) as Hurls.
    destruct (scroll_step st d) as [[st1 stop] d1] eqn:Es.
    cbn [fst snd] in Hurls.
    assert (img_urls st = extract_from (page_imgs pg) (page_styles pg) →
            img_urls st1 = extract_from (page_imgs pg) (page_styles pg))
      as Hst1.
    { rewrite Hurls. intros ->. apply (idemp_L (∪)). }
    destruct stop.
    + intros [= <- <-]. exact Hst1.
    + intros Hloop Hst. apply (IH _ _ Hloop). by apply Hst1.
Qed.

(** The harvest of a page that does not change is what the extractor
    returns for it, reference by reference. *)
Lemma static_harvest (url : string) (d : Q) :
  img_urls
    <$> (@get_image_urls_from_page Q (static_surface pg)
           max_scroll_attempts url d).1
  = Some (extract_from (page_imgs pg) (page_styles pg)).
Proof.
  unfold get_image_urls_from_page.
  cbn [load_page scroll_height static_surface].
  destruct (@scroll_loop_terminates Q (static_surface pg)
              max_scroll_attempts (mkLoop ∅ (doc_height pg) 0 0) 0%Q)
    as (st & d' & Hrun & _).
  { cbn [scroll_attempts]. lia. }
  rewrite Hrun. cbn [fst fmap option_fmap option_map]. f_equal.
  revert Hrun. change max_scroll_attempts with (S 4) at 1.
  rewrite scroll_loop_S. cbn [scroll_attempts].
  change (0 <? max_scroll_attempts)%nat with true. cbv iota.
  pose proof (static_scroll_step (mkLoop ∅ (doc_height pg) 0 0) 0%Q)
    as Hurls.
  destruct (scroll_step _ _) as [[st1 stop] d1].
  cbn [fst snd img_urls] in Hurls.
  rewrite (left_id_L ∅ (∪)) in Hurls. destruct stop.
  - by intros [= <- <-].
  - intros Hloop. by apply (static_scroll_loop _ _ _ _ _ Hloop).
Qed.

End StaticPages.

(** C2, as amended.  The harvester accumulates the references exactly as
    the extractor returns them and never resolves them: each execution of
    the loop body adds the extracted set to the running set, and for a
    page that does not change the harvest is the extractor's set
    whatever the page URL.  For the scenario page the harvest is
    [{/a.png, /b.png, /c.png, /d.jpg}]; it is [download_image] that
    resolves each of them against [https://ex.com/], to the four absolute
    URLs of the scenario. *)
Theorem harvest_keeps_raw_references {D : Type} `{RenderSurface D}
    (st : LoopState) (d : D) (pg : StaticPage) (url : string) :
  img_urls st ∪ (extract_images_from_current_state d).1
    ⊆ img_urls (scroll_step st d).1.1
  ∧ img_urls
      <$> (@get_image_urls_from_page Q (static_surface pg)
             max_scroll_attempts url 0%Q).1
    = Some (extract_from (page_imgs pg) (page_styles pg))
  ∧ img_urls
      <$> (@get_image_urls_from_page Q (static_surface scenario_page)
             max_scroll_attempts "https://ex.com/" 0%Q).1
    = Some {[ "/a.png"; "/b.png"; "/c.png"; "/d.jpg" ]}
  ∧ (λ u, resolve u "https://ex.com/")
      <$> ["/a.png"; "/b.png"; "/c.png"; "/d.jpg"]
    = [ Some "https://ex.com/a.png"; Some "https://ex.com/b.png";
        Some "https://ex.com/c.png"; Some "https://ex.com/d.jpg" ].
Proof.
  split_and!.
  - apply scroll_step_spec.
  - apply static_harvest.
  - rewrite static_harvest. vm_compute. reflexivity.
  - vm_compute. reflexivity.
Qed.

(** C2, the claim as stated fails: the harvest of the scenario page is
    not the set of the four absolute URLs; it holds the reference
    [/a.png] and does not hold [https://ex.com/a.png]. *)
Lemma harvest_scenario_is_unresolved :
  img_urls
    <$> (@get_image_urls_from_page Q (static_surface scenario_page)
           max_scroll_attempts "https://ex.com/" 0%Q).1
  ≠ Some {[ "https://ex.com/a.png"; "https://ex.com/b.png";
            "https://ex.com/c.png"; "https://ex.com/d.jpg" ]}.
Proof.
  rewrite static_harvest. intros Heq.
  apply (f_equal (fmap (λ X : gset string, bool_decide ("/a.png" ∈ X))))
    in Heq.
  vm_compute in Heq. discriminate Heq.
Qed.

(** ** Resolution *)
Section Resolution.
Implicit Types (base ref url r : string).

Lemma urlparse_scheme_http base default b :
  is_http base → UrlParse.urlparse base default = Some b →
  UrlParse.scheme b = "http" ∨ UrlParse.scheme b = "https".
Proof.
  intros [[rest ->]%startswith_inv | [rest ->]%startswith_inv];
    unfold UrlParse.urlparse, UrlParse.urlsplit; cbv zeta.
  - change (UrlParse.remove_unsafe
              (Py.lstrip UrlParse.c0_control_or_space ("http://" +:+ rest)))
      with ("http://" +:+ UrlParse.remove_unsafe rest).
    change (UrlParse.split_scheme ("http://" +:+ UrlParse.remove_unsafe rest)
              ?d)
      with ("http", "//" +:+ UrlParse.remove_unsafe rest).
    repeat (case_match; simplify_eq); intros [= <-]; by left.
  - change (UrlParse.remove_unsafe
              (Py.lstrip UrlParse.c0_control_or_space ("https://" +:+ rest)))
      with ("https://" +:+ UrlParse.remove_unsafe rest).
    change (UrlParse.split_scheme
              ("https://" +:+ UrlParse.remove_unsafe rest) ?d)
      with ("https", "//" +:+ UrlParse.remove_unsafe rest).
    repeat (case_match; simplify_eq); intros [= <-]; by right.
Qed.

Lemma urlunsplit_http sch net url q frag :
  sch = "http" ∨ sch = "https" →
  is_http (UrlParse.urlunsplit sch net url q frag).
Proof.
  assert (∀ s t, is_http s → is_http (s +:+ t)) as Happ.
  { intros s t [Hs | Hs]; [left | right]; by apply startswith_app_l. }
  assert (∀ s : string, is_http s →
            is_http (if Py.truthy frag then s +:+ "#" +:+ frag else s))
    as Hfrag.
  { intros s Hs. destruct (Py.truthy frag); [by apply Happ | done]. }
  assert (∀ s : string, is_http s →
            is_http (if Py.truthy q then s +:+ "?" +:+ q else s)) as Hq.
  { intros s Hs. destruct (Py.truthy q); [by apply Happ | done]. }
  intros [-> | ->]; unfold UrlParse.urlunsplit; cbv zeta;
    apply Hfrag, Hq;
    change (Py.truthy "http") with true;
    change (Py.truthy "https") with true;
    change (UrlParse.mem "http" UrlParse.uses_netloc) with true;
    change (UrlParse.mem "https" UrlParse.uses_netloc) with true;
    cbv iota; rewrite andb_true_l;
    (destruct (Py.truthy net);
     [ cbn [orb]
     | cbn [orb]; destruct (Py.startswith url "//") eqn:E; cbn [negb] ]).
  - by left.
  - apply startswith_inv in E as [t ->]. by left.
  - by left.
  - by right.
  - apply startswith_inv in E as [t ->]. by right.
  - by right.
Qed.

Lemma urlunparse_http p :
  UrlParse.scheme p = "http" ∨ UrlParse.scheme p = "https" →
  is_http (UrlParse.urlunparse p).
Proof. intros Hs. unfold UrlParse.urlunparse. by apply urlunsplit_http. Qed.

(** Joining to an absolute HTTP base gives the reference itself or an
    absolute HTTP URL. *)
Lemma urljoin_http base url r :
  is_http base → UrlParse.urljoin base url = Some r →
  r = url ∨ is_http r.
Proof.
  intros Hbase. unfold UrlParse.urljoin.
  destruct (Py.truthy base); cbn [negb]; [| by intros [= <-]; left].
  destruct (Py.truthy url); cbn [negb]; [| by intros [= <-]; right].
  destruct (UrlParse.urlparse base "") as [b|] eqn:Eb; [| done].
  pose proof (urlparse_scheme_http _ _ _ Hbase Eb) as Hb.
  destruct (UrlParse.urlparse url (UrlParse.scheme b)) as [u|] eqn:Eu;
    [| done].
  destruct (negb (String.eqb (UrlParse.scheme u) (UrlParse.scheme b)))
    eqn:Esch; cbn [orb]; [by intros [= <-]; left |].
  apply negb_false_iff, String.eqb_eq in Esch.
  rewrite <- Esch in Hb.
  repeat case_match; intros [= <-]; try (by left);
    right; apply urlunparse_http; cbn [UrlParse.scheme]; done.
Qed.

Lemma resolve_absolute ref base : is_http ref → resolve ref base = Some ref.
Proof.
  intros [Hr | Hr]; unfold resolve; rewrite Hr; [done |].
  by rewrite orb_true_r.
Qed.

(** C7, as amended.  Resolution is a function of the reference and the
    base; a reference that already starts with [http://] or [https://]
    passes through unchanged; and when the base URL starts with
    [http://] or [https://], resolving the result of a resolution gives
    that result again. *)
Theorem resolve_deterministic_idempotent ref base r :
  (∀ o1 o2 : option string,
     resolve ref base = o1 → resolve ref base = o2 → o1 = o2)
  ∧ (is_http ref → resolve ref base = Some ref)
  ∧ (is_http base → resolve ref base = Some r → resolve r base = Some r).
Proof.
  split_and!.
  - by intros o1 o2 <- <-.
  - apply resolve_absolute.
  - intros Hbase Hres. pose proof Hres as Hres'. unfold resolve in Hres.
    destruct (Py.startswith ref "http://" || Py.startswith ref "https://"
              || Py.startswith ref "data:").
    + injection Hres as <-. exact Hres'.
    + apply urljoin_http in Hres as [-> | Hr]; [exact Hres' | | done].
      by apply resolve_absolute.
Qed.

Lemma resolve_deterministic_idempotent_witness :
  resolve "https://cdn.ex.com/a.png" "https://ex.com/page"
    = Some "https://cdn.ex.com/a.png"
  ∧ resolve "../img/a.png" "https://ex.com/blog/post"
      = Some "https://ex.com/img/a.png"
  ∧ resolve "https://ex.com/img/a.png" "https://ex.com/blog/post"
      = Some "https://ex.com/img/a.png".
Proof.
  assert (resolve "../img/a.png" "https://ex.com/blog/post"
          = Some "https://ex.com/img/a.png") as Hres.
  { vm_compute. reflexivity. }
  split_and!.
  - destruct (resolve_deterministic_idempotent "https://cdn.ex.com/a.png"
                "https://ex.com/page" "") as (_ & H & _).
    apply H. right. vm_compute. reflexivity.
  - exact Hres.
  - destruct (resolve_deterministic_idempotent "../img/a.png"
                "https://ex.com/blog/post" "https://ex.com/img/a.png")
      as (_ & _ & H).
    apply H; [right; vm_compute; reflexivity | exact Hres].
Defined.

(** C7, the claim as stated fails: with the base [HTTPS://ex.com] the
    empty reference resolves to the base as it is written, and
    resolving that result again gives the base with its scheme in
    lower case, a different string. *)
Lemma resolve_not_idempotent :
  resolve "" "HTTPS://ex.com" = Some "HTTPS://ex.com"
  ∧ resolve "HTTPS://ex.com" "HTTPS://ex.com" = Some "https://ex.com"
  ∧ "HTTPS://ex.com" ≠ "https://ex.com".
Proof. vm_compute. split_and!; [reflexivity | reflexivity | discriminate]. Qed.

End Resolution.

(** * Further properties of the script *)

(** ** File names *)
Section FileNames.
Implicit Types (s p ext : string) (c : ascii).

Lemma has_char_app c s t :
  Py.has_char c (s +:+ t) = Py.has_char c s || Py.has_char c t.
Proof.
  induction s as [|x s IH]; simpl; [done |]. by rewrite IH, orb_assoc.
Qed.

Lemma has_char_drop c n s :
  Py.has_char c s = false → Py.has_char c (Py.drop n s) = false.
Proof.
  revert s. induction n as [|n IH]; intros [|x s]; simpl; try done.
  intros [_ Hs]%orb_false_iff. by apply IH.
Qed.

Lemma rfind_None c s : Py.rfind c s = None → Py.has_char c s = false.
Proof.
  induction s as [|x s IH]; simpl; [done |].
  destruct (Py.rfind c s); [done |].
  destruct (Ascii.eqb x c) eqn:Ex; [done |].
  intros _. by rewrite Ascii.eqb_sym, Ex, IH.
Qed.

(** After the last occurrence there is no further one, and at the
    position found stands the character looked for. *)
Lemma rfind_Some c s i :
  Py.rfind c s = Some i →
  (∃ t, Py.drop i s = String c t) ∧ Py.has_char c (Py.drop (S i) s) = false.
Proof.
  revert i. induction s as [|x s IH]; intros i; simpl; [done |].
  destruct (Py.rfind c s) as [j|] eqn:Ej.
  - intros [= <-]. destruct (IH j eq_refl) as [Ht Hd]. by split.
  - destruct (Ascii.eqb x c) eqn:Ex; [| done]. intros [= <-].
    apply Ascii.eqb_eq in Ex as ->. split; [by eexists |].
    simpl. by apply rfind_None.
Qed.

Lemma drop_drop n m s : Py.drop n (Py.drop m s) = Py.drop (m + n) s.
Proof.
  revert s. induction m as [|m IH]; intros s; [done |].
  destruct s as [|x s]; simpl; [by destruct n | apply IH].
Qed.

(** The extension [os.path.splitext] returns is empty or starts with a
    dot, and never holds a slash. *)
Lemma splitext_ext p :
  let ext := (PosixPath.splitext p).2 in
  (ext = EmptyString ∨ Py.startswith ext "." = true)
  ∧ Py.has_char "/" ext = false.
Proof.
  cbv zeta. unfold PosixPath.splitext.
  destruct (Py.rfind "." p) as [d|] eqn:Ed; [| by split; [left |]].
  case_match; [| by split; [left |]].
  cbn [snd]. apply andb_true_iff in H as [Hle _]. apply Nat.leb_le in Hle.
  destruct (rfind_Some _ _ _ Ed) as [[t Ht] _]. split.
  - right. rewrite Ht. simpl. done.
  - destruct (Py.rfind "/" p) as [i|] eqn:Ei.
    + destruct (rfind_Some _ _ _ Ei) as [_ Hno].
      replace d with (S i + (d - S i))%nat by lia.
      rewrite <- drop_drop. by apply has_char_drop.
    + apply has_char_drop. by apply rfind_None.
Qed.

Lemma hex_length bs : String.length (MD5.hex bs) = (2 * length bs)%nat.
Proof. induction bs as [|b bs IH]; simpl; [done |]. rewrite IH. lia. Qed.

Lemma hexdigest_length msg : String.length (MD5.hexdigest msg) = 32%nat.
Proof.
  unfold MD5.hexdigest, MD5.digest. rewrite hex_length.
  by destruct (foldl _ _ _).
Qed.

Lemma hex_digit_not_slash x :
  (0 ≤ x < 16)%Z → Ascii.eqb "/" (MD5.hex_digit x) = false.
Proof.
  intros Hx. replace x with (Z.of_nat (Z.to_nat x)) by lia.
  assert (Z.to_nat x < 16)%nat as Hn by lia. revert Hn.
  generalize (Z.to_nat x) as n. intros n Hn.
  do 16 (destruct n as [|n]; [reflexivity |]). lia.
Qed.

Lemma hex_no_slash bs :
  Forall (λ b, 0 ≤ b < 256)%Z bs → Py.has_char "/" (MD5.hex bs) = false.
Proof.
  induction 1 as [|b bs Hb _ IH]; [done |]. cbn [MD5.hex Py.has_char].
  rewrite IH, !hex_digit_not_slash; [done | |].
  - apply Z.mod_pos_bound. lia.
  - split; [apply Z.div_pos; lia | apply Z.div_lt_upper_bound; lia].
Qed.

Lemma le_bytes_range n x : Forall (λ b, 0 ≤ b < 256)%Z (MD5.le_bytes n x).
Proof.
  revert x. induction n as [|n IH]; intros x; cbn [MD5.le_bytes];
    constructor; [apply Z.mod_pos_bound; lia | apply IH].
Qed.

Lemma hexdigest_no_slash msg : Py.has_char "/" (MD5.hexdigest msg) = false.
Proof.
  unfold MD5.hexdigest, MD5.digest. destruct (foldl _ _ _).
  apply hex_no_slash. rewrite !Forall_app.
  split_and!; apply le_bytes_range.
Qed.

Lemma truthy_length s : (0 < String.length s)%nat → Py.truthy s = true.
Proof. destruct s; simpl; [lia | done]. Qed.

Lemma string_length_app s t :
  String.length (s +:+ t) = (String.length s + String.length t)%nat.
Proof. induction s as [|c s IH]; simpl; [done | by rewrite IH]. Qed.

(** What [filepath_of] builds. *)
Lemma filepath_of_shape r save_dir p :
  filepath_of r save_dir = Some p →
  ∃ ext,
    let filename := MD5.hexdigest (Py.encode r) +:+ ext in
    Py.startswith ext "." = true
    ∧ Py.has_char "/" filename = false
    ∧ (33 ≤ String.length filename)%nat
    ∧ p = (if negb (Py.truthy save_dir) || Py.endswith save_dir "/"
           then save_dir +:+ filename
           else save_dir +:+ "/" +:+ filename).
Proof.
  unfold filepath_of.
  destruct (UrlParse.urlparse r EmptyString) as [u|]; [| done].
  intros [= <-].
  pose proof (splitext_ext (UrlParse.path u)) as [Hdot Hslash].
  cbv zeta in Hdot, Hslash.
  set (ext0 := (PosixPath.splitext (UrlParse.path u)).2) in *.
  exists (if Py.truthy ext0 then ext0 else ".jpg"). cbv zeta.
  assert (Py.startswith (if Py.truthy ext0 then ext0 else ".jpg") "." = true)
    as Hstart.
  { destruct Hdot as [-> | Hdot]; [done |].
    destruct (Py.truthy ext0); done. }
  assert (Py.has_char "/" (if Py.truthy ext0 then ext0 else ".jpg") = false)
    as Hno.
  { destruct (Py.truthy ext0); done. }
  set (ext := if Py.truthy ext0 then ext0 else ".jpg") in *.
  split_and!; [done | | |].
  - by rewrite has_char_app, hexdigest_no_slash, Hno.
  - rewrite string_length_app, hexdigest_length.
    apply startswith_inv in Hstart as [t ->]. simpl. lia.
  - unfold PosixPath.join.
    assert (Py.startswith (MD5.hexdigest (Py.encode r) +:+ ext) "/" = false)
      as ->.
    { pose proof (hexdigest_no_slash (Py.encode r)) as Hh.
      pose proof (hexdigest_length (Py.encode r)) as Hl.
      destruct (MD5.hexdigest (Py.encode r)) as [|c h]; [done |].
      simpl in Hh |- *. apply orb_false_iff in Hh as [Hc _].
      by rewrite Hc. }
    done.
Qed.

Lemma filepath_of_truthy r save_dir p :
  filepath_of r save_dir = Some p → Py.truthy p = true.
Proof.
  intros (ext & _ & _ & Hlen & Hp)%filepath_of_shape. cbv zeta in *.
  apply truthy_length.
  rewrite string_length_app in Hlen. subst p.
  destruct (negb (Py.truthy save_dir) || Py.endswith save_dir "/");
    rewrite !string_length_app; lia.
Qed.

End FileNames.

(** ** What a call of [download_image] does and never does *)
Section FetcherExtras.
Implicit Types (net : Network) (fs : gmap string string).
Implicit Types (url base_url save_dir r p : string).

(** X1.  A saved file lies directly in the destination directory: its
    path is [save_dir], then a slash unless [save_dir] is empty or ends
    in one, then a file name made of the 32 hexadecimal digits of the
    MD5 of the resolved URL and an extension that starts with a dot; the
    file name holds no slash, whatever the URL. *)
Theorem saved_file_is_direct_child net fs url base_url save_dir p :
  outcome (download_image net fs url base_url save_dir) = Saved p →
  ∃ r ext,
    let filename := MD5.hexdigest (Py.encode r) +:+ ext in
    resolve url base_url = Some r
    ∧ String.length (MD5.hexdigest (Py.encode r)) = 32%nat
    ∧ Py.startswith ext "." = true
    ∧ Py.has_char "/" filename = false
    ∧ p = (if negb (Py.truthy save_dir) || Py.endswith save_dir "/"
           then save_dir +:+ filename
           else save_dir +:+ "/" +:+ filename).
Proof.
  intros (r & resp & Hr & _ & _ & _ & Hp & _)%download_image_saved_inv.
  apply filepath_of_shape in Hp as (ext & Hdot & Hslash & _ & Hp).
  exists r, ext. cbv zeta in *.
  split_and!; [done | apply hexdigest_length | done..].
Qed.

Lemma saved_file_is_direct_child_witness :
  ∃ r ext,
    resolve "../a/b.tar.gz?x=/../etc" "https://ex.com/p/q" = Some r
    ∧ String.length (MD5.hexdigest (Py.encode r)) = 32%nat
    ∧ Py.startswith ext "." = true
    ∧ Py.has_char "/" (MD5.hexdigest (Py.encode r) +:+ ext) = false
    ∧ "images/9eb02f21febcc0b16a59e280392185fb.gz"
      = "images" +:+ "/" +:+ MD5.hexdigest (Py.encode r) +:+ ext.
Proof.
  destruct (saved_file_is_direct_child net_png ∅ "../a/b.tar.gz?x=/../etc"
              "https://ex.com/p/q" "images"
              "images/9eb02f21febcc0b16a59e280392185fb.gz")
    as (r & ext & Hr & Hlen & Hdot & Hslash & Hp).
  - vm_compute. reflexivity.
  - exists r, ext. split_and!; [done.. |]. exact Hp.
Defined.


Lemma download_image_lookup_kept net fs url base_url save_dir p c :
  fs !! p = Some c →
  files (download_image net fs url base_url save_dir) !! p = Some c.
Proof.
  intros Hp.
  destruct (download_image_files net fs url base_url save_dir)
    as [[-> _] | [(q & b & _ & Hq & ->) | (q & b & _ & Hq & ->)]]; [done | |];
    (rewrite lookup_insert_ne; [done | congruence]).
Qed.

Lemma download_all_lookup_kept net fs (urls : list string) base_url save_dir p c :
  fs !! p = Some c →
  (download_all net fs urls base_url save_dir).2 !! p = Some c.
Proof.
  revert fs. induction urls as [|u l IH]; intros fs Hp; [done |].
  rewrite download_all_cons. cbv zeta. cbn [snd].
  by apply IH, download_image_lookup_kept.
Qed.

(** X3.  A call never overwrites or removes a file that is in the
    directory, and neither does a batch. *)
Theorem existing_files_are_kept net fs urls base_url save_dir p c :
  fs !! p = Some c →
  (∀ url, files (download_image net fs url base_url save_dir) !! p = Some c)
  ∧ (download_all net fs urls base_url save_dir).2 !! p = Some c.
Proof.
  intros Hp. split.
  - intros url. by apply download_image_lookup_kept.
  - by apply download_all_lookup_kept.
Qed.

Lemma existing_files_are_kept_witness :
  (download_all net_png disk_with_a_png ["/a.png"; "/b.png"]
     "https://ex.com/" "images").2
    !! "images/c98b0c87944d062e1bacda2032deb838.png" = Some "PNG".
Proof.
  apply (existing_files_are_kept net_png disk_with_a_png
           ["/a.png"; "/b.png"] "https://ex.com/" "images").
  vm_compute. reflexivity.
Defined.

Lemma requests_follow_the_protocol_aux net fs url base_url save_dir :
  let res := download_image net fs url base_url save_dir in
  trace res = []
  ∨ ∃ r,
      resolve url base_url = Some r
      ∧ Py.startswith r "data:" = false
      ∧ is_svg_image r None = false
      ∧ (trace res = [EvHead r]
         ∨ trace res = [EvHead r; EvGet r]
           ∧ return_value (outcome res) = None
         ∨ ∃ p, trace res = [EvHead r; EvGet r; EvWrite p]
                ∧ outcome res = Saved p).
Proof.
  cbv zeta. download_cases; try (by left); right; eexists;
    (split_and!; [done..|]); eauto.
Qed.

(** X4.  The requests of one call: none at all, or the header probe,
    then possibly the full retrieval, then possibly the write, each at
    most once and in this order, all for the resolved URL; and a URL
    that is a data URI or that [is_svg_image] accepts on its text is
    never requested. *)
Theorem requests_follow_the_protocol net fs url base_url save_dir :
  let res := download_image net fs url base_url save_dir in
  trace res = []
  ∨ ∃ r,
      resolve url base_url = Some r
      ∧ Py.startswith r "data:" = false
      ∧ is_svg_image r None = false
      ∧ (trace res = [EvHead r]
         ∨ trace res = [EvHead r; EvGet r]
           ∧ return_value (outcome res) = None
         ∨ ∃ p, trace res = [EvHead r; EvGet r; EvWrite p]
                ∧ outcome res = Saved p).
Proof. apply requests_follow_the_protocol_aux. Qed.

(** The header probe is advisory: when it raises, the call goes on
    exactly as it does after a probe whose content type does not name
    SVG. *)
Theorem failed_probe_is_ignored net net' fs url base_url save_dir r hr :
  resolve url base_url = Some r →
  head net r = None →
  head net' r = Some hr →
  is_svg_image r (Some (content_type hr)) = false →
  get net' r = get net r →
  write_file net' = write_file net →
  download_image net fs url base_url save_dir
  = download_image net' fs url base_url save_dir.
Proof.
  intros Hr Hnone Hsome Hct Hget Hwrite. unfold download_image.
  rewrite Hr, Hnone, Hsome, Hct, Hget, Hwrite. done.
Qed.

Lemma failed_probe_is_ignored_witness :
  download_image
    (mkNetwork (λ _, None) (get net_png) (write_file net_png))
    ∅ "/a.png" "https://ex.com/" "images"
  = download_image net_png ∅ "/a.png" "https://ex.com/" "images".
Proof.
  apply (failed_probe_is_ignored _ net_png ∅ "/a.png" "https://ex.com/"
           "images" "https://ex.com/a.png" (mkResponse 200 "image/png" ""));
    vm_compute; reflexivity.
Defined.

(** X5.  Two references that resolve to the same URL share one file:
    once a call has saved it, a call for the other reference (same
    network) ends at the duplicate-on-disk return after the probe alone
    and leaves the directory as it is. *)
Theorem same_resolved_url_is_saved_once net fs u1 u2 base_url save_dir r p :
  resolve u1 base_url = Some r →
  resolve u2 base_url = Some r →
  outcome (download_image net fs u1 base_url save_dir) = Saved p →
  download_image net
    (files (download_image net fs u1 base_url save_dir)) u2 base_url save_dir
  = mkResult SkippedDuplicateOnDisk [EvHead r]
      (files (download_image net fs u1 base_url save_dir)).
Proof.
  intros H1 H2 Hs.
  destruct (download_image_saved_inv _ _ _ _ _ _ Hs)
    as (r' & resp & Hr' & Hdata & Hsvg & Hprobe & Hp & _ & _ & _ & _ & Hf & _).
  rewrite H1 in Hr'. injection Hr' as <-. rewrite Hf.
  destruct (download_image_existing_file net (<[p := content resp]> fs)
              u2 base_url save_dir r p H2 Hp) as (_ & Hfiles & _ & Hdup).
  { rewrite lookup_insert_eq. by eexists. }
  destruct (Hdup Hdata Hsvg Hprobe) as [Ho Ht].
  destruct (download_image net _ u2 base_url save_dir) as [o t f].
  cbn [outcome trace files] in *. by subst.
Qed.

Lemma same_resolved_url_is_saved_once_witness :
  download_image net_png
    (files (download_image net_png ∅ "/a.png" "https://ex.com/" "images"))
    "https://ex.com/a.png" "https://ex.com/" "images"
  = mkResult SkippedDuplicateOnDisk [EvHead "https://ex.com/a.png"]
      (files (download_image net_png ∅ "/a.png" "https://ex.com/" "images")).
Proof.
  apply (same_resolved_url_is_saved_once net_png ∅ "/a.png"
           "https://ex.com/a.png" "https://ex.com/" "images"
           "https://ex.com/a.png"
           "images/c98b0c87944d062e1bacda2032deb838.png");
    vm_compute; reflexivity.
Defined.

(** X6.  With a base URL that starts with [http://] or [https://], every
    request goes to a URL that starts with [http://] or [https://], or
    to the reference exactly as it was written (a reference with a
    scheme of its own): no relative URL is ever requested as resolved
    text without a scheme. *)
Theorem requests_go_to_absolute_urls net fs url base_url save_dir u :
  is_http base_url →
  EvHead u ∈ trace (download_image net fs url base_url save_dir)
  ∨ EvGet u ∈ trace (download_image net fs url base_url save_dir) →
  is_http u ∨ u = url.
Proof.
  intros Hbase Hin.
  destruct (requests_follow_the_protocol_aux net fs url base_url save_dir)
    as [Hnil | (r & Hr & _ & _ & Ht)].
  { rewrite Hnil in Hin. destruct Hin as [Hin | Hin];
      by apply elem_of_nil in Hin. }
  assert (u = r) as ->.
  { destruct Ht as [Ht | [[Ht _] | (p & Ht & _)]]; rewrite Ht in Hin;
      destruct Hin as [Hin | Hin];
      repeat (apply elem_of_cons in Hin as [Hin | Hin]; simplify_eq);
      try done; by apply elem_of_nil in Hin. }
  unfold resolve in Hr.
  destruct (Py.startswith url "http://" || Py.startswith url "https://"
            || Py.startswith url "data:").
  - injection Hr as <-. by right.
  - apply urljoin_http in Hr as [-> | Hr]; auto.
Qed.

Lemma requests_go_to_absolute_urls_witness :
  is_http "https://ex.com/img/a.png" ∨ "https://ex.com/img/a.png" = "../img/a.png".
Proof.
  apply (requests_go_to_absolute_urls net_png ∅ "../img/a.png"
           "https://ex.com/blog/post" "images").
  - right. vm_compute. reflexivity.
  - left. vm_compute. apply list_elem_of_here.
Defined.

End FetcherExtras.

(** ** The classifier *)
Section ClassifierExtras.

Lemma lower_char_idemp c : Py.lower_char (Py.lower_char c) = Py.lower_char c.
Proof. destruct c as [[] [] [] [] [] [] [] []]; reflexivity. Qed.

Lemma lower_idemp s : Py.lower (Py.lower s) = Py.lower s.
Proof.
  induction s as [|c s IH]; simpl; [done |].
  by rewrite lower_char_idemp, IH.
Qed.

Lemma endswith_contains s : Py.endswith s ".svg" = true → Py.contains s "svg" = true.
Proof.
  intros [a ->]%endswith_inv.
  apply (contains_intro _ (a +:+ ".") EmptyString).
  by rewrite !append_assoc.
Qed.

(** X8.  [is_svg_image] is a test for the three letters [svg]: it is
    true exactly when the URL or the supplied content type contains them
    in any letter case.  The test of the suffix [.svg] adds nothing, the
    letter case of the URL does not matter, and a content type can only
    turn the answer for the URL alone from false to true. *)
Theorem is_svg_image_is_a_substring_test url (ct : option string) :
  is_svg_image url ct
  = Py.contains (Py.lower url) "svg"
    || match ct with
       | Some c => Py.contains (Py.lower c) "svg"
       | None => false
       end
  ∧ is_svg_image (Py.lower url) ct = is_svg_image url ct
  ∧ is_svg_image url ct
    = is_svg_image url None
      || match ct with
         | Some c => Py.contains (Py.lower c) "svg"
         | None => false
         end.
Proof.
  assert (∀ u o, is_svg_image u o
                 = Py.contains (Py.lower u) "svg"
                   || match o with
                      | Some c => Py.contains (Py.lower c) "svg"
                      | None => false
                      end) as Hspec.
  { intros u o. unfold is_svg_image.
    destruct (Py.endswith (Py.lower u) ".svg") eqn:Hend.
    { by rewrite (endswith_contains _ Hend). }
    destruct (Py.contains (Py.lower u) "svg"); [done |]. cbn [orb].
    destruct o as [c|]; [| done].
    destruct (Py.contains (Py.lower c) "svg") eqn:Hc;
      [| apply andb_false_r].
    assert (Py.truthy c = true) as ->; [| done].
    destruct c; [done | done]. }
  split_and!.
  - apply Hspec.
  - by rewrite !Hspec, lower_idemp.
  - rewrite (Hspec url None), orb_false_r. apply Hspec.
Qed.

End ClassifierExtras.

(** ** A batch of downloads *)
Section BatchExtras.
Implicit Types (net : Network) (fs : gmap string string).
Implicit Types (urls : list string) (base_url save_dir : string).

(** With writes that never break off midway a call changes the
    directory only by the file it returns. *)
Lemma download_image_files_atomic net fs url base_url save_dir :
  write_is_atomic net →
  let res := download_image net fs url base_url save_dir in
  (files res = fs ∧ ∀ p, outcome res ≠ Saved p)
  ∨ ∃ p c, outcome res = Saved p ∧ fs !! p = None
           ∧ files res = <[p := c]> fs.
Proof.
  intros Hatomic. cbv zeta.
  destruct (download_image_write_inv net fs url base_url save_dir)
    as [H | (r & p & resp & _ & _ & Hnone & _ & _ & Hw)]; [by left |].
  destruct Hw as [(_ & Ho & Hf) | (written & Hw & _)].
  - right. by exists p, (content resp).
  - by destruct (Hatomic p (content resp) written).
Qed.

(** The paths a batch returned, in order. *)
Lemma download_all_saved net fs urls base_url save_dir :
  let run := download_all net fs urls base_url save_dir in
  let saved := omap return_value run.1.2 in
  NoDup saved
  ∧ (∀ p, p ∈ saved → fs !! p = None)
  ∧ (∀ p, p ∈ saved → is_Some (run.2 !! p))
  ∧ run.1.1 = length saved
  ∧ (run.1.1 ≤ length urls)%nat.
Proof.
  cbv zeta. revert fs. induction urls as [|u l IH]; intros fs.
  { cbn. split_and!;
      [ apply NoDup_nil_2 | by intros p ?%elem_of_nil
      | by intros p ?%elem_of_nil | done | done ]. }
  rewrite download_all_cons. cbv zeta. cbn [fst snd].
  specialize (IH (files (download_image net fs u base_url save_dir))).
  destruct IH as (Hnd & Hnew & Hin & Hn & Hle).
  assert (∀ q, files (download_image net fs u base_url save_dir) !! q = None
               → fs !! q = None) as Hfree.
  { intros q Hq. apply not_elem_of_dom. apply not_elem_of_dom in Hq.
    intros Hd. by apply Hq, download_image_dom. }
  destruct (outcome (download_image net fs u base_url save_dir)) eqn:Ho.
  2-5: unfold is_download; cbn [return_value omap list_omap length];
    split_and!; [done | by intros q Hq; apply Hfree, Hnew | done | done | lia].
  destruct (download_image_saved_inv _ _ _ _ _ _ Ho)
    as (r & resp & _ & _ & _ & _ & Hp & Hnone & _ & _ & _ & Hf & _).
  rewrite Hf in *. cbn [omap list_omap return_value].
  unfold is_download. cbn [return_value].
  rewrite (filepath_of_truthy _ _ _ Hp).
  assert (filepath ∉ omap return_value
            (download_all net (<[filepath:=content resp]> fs) l base_url
               save_dir).1.2) as Hfresh.
  { intros Hq. apply Hnew in Hq. by rewrite lookup_insert_eq in Hq. }
  split_and!.
  - by constructor.
  - intros q [-> | Hq]%elem_of_cons; [done |]. by apply Hfree, Hnew.
  - intros q [-> | Hq]%elem_of_cons; [| by apply Hin].
    apply elem_of_dom, download_all_dom, elem_of_dom.
    rewrite lookup_insert_eq. by eexists.
  - cbn [length]. by rewrite Hn.
  - cbn [length]. lia.
Qed.

(** With writes that never break off midway the directory after a batch
    holds the initial files and the returned paths, nothing else. *)
Lemma download_all_dom_atomic net fs urls base_url save_dir :
  write_is_atomic net →
  let run := download_all net fs urls base_url save_dir in
  dom run.2 = dom fs ∪ list_to_set (omap return_value run.1.2).
Proof.
  intros Hatomic. cbv zeta. revert fs.
  induction urls as [|u l IH]; intros fs.
  { cbn. by rewrite (right_id_L ∅ (∪)). }
  rewrite download_all_cons. cbv zeta. cbn [fst snd].
  rewrite IH.
  destruct (download_image_files_atomic net fs u base_url save_dir Hatomic)
    as [[Hf Hn] | (p & c & Ho & _ & Hf)]; rewrite Hf.
  - destruct (outcome _) eqn:Ho; [by destruct (Hn filepath) | done..].
  - rewrite Ho, dom_insert_L. cbn [omap list_omap return_value list_to_set].
    by rewrite (comm_L (∪) {[p]} (dom fs)), (assoc_L (∪)).
Qed.

(** The size of a directory that holds [fs] and a list of further
    paths. *)
Lemma size_dom_with_new fs (saved : list string) (X : gset string) :
  NoDup saved →
  (∀ p, p ∈ saved → fs !! p = None) →
  dom fs ∪ list_to_set saved ⊆ X →
  (size (dom fs) + length saved ≤ size X)%nat.
Proof.
  intros Hnd Hfree Hsub.
  rewrite <- (size_list_to_set (C := gset string) saved Hnd).
  rewrite <- size_union.
  - by apply subseteq_size.
  - intros p Hp Hq%elem_of_list_to_set%Hfree%not_elem_of_dom. done.
Qed.

(** X9.  [successful_downloads] is the number of calls that returned a
    path, at most the number of URLs.  The batch has added at least that
    many files to the directory, and exactly that many when no write
    breaks off midway (a write that does leaves a file that is not
    counted). *)
Theorem successful_downloads_counts_new_files net fs urls base_url save_dir :
  let run := download_all net fs urls base_url save_dir in
  run.1.1 = length (omap return_value run.1.2)
  ∧ (run.1.1 ≤ length urls)%nat
  ∧ (size (dom fs) + run.1.1 ≤ size (dom run.2))%nat
  ∧ (write_is_atomic net →
     size (dom run.2) = (size (dom fs) + run.1.1)%nat).
Proof.
  cbv zeta.
  destruct (download_all_saved net fs urls base_url save_dir)
    as (Hnd & Hfree & Hin & Hn & Hle).
  split_and!; [done | done | |].
  - rewrite Hn. apply size_dom_with_new; [done | done |].
    apply union_subseteq. split; [apply download_all_dom |].
    intros p Hp%elem_of_list_to_set. by apply elem_of_dom, Hin.
  - intros Hatomic.
    rewrite (download_all_dom_atomic _ _ _ _ _ Hatomic), Hn.
    rewrite size_union, (size_list_to_set (C := gset string)); [done | done |].
    intros p Hp Hq%elem_of_list_to_set%Hfree%not_elem_of_dom. done.
Qed.

Lemma successful_downloads_counts_new_files_witness :
  let run := download_all net_png disk_with_a_png
               ["/a.png"; "/b.png"; "b.png"] "https://ex.com/" "images" in
  run.1.1 = 1%nat ∧ size (dom run.2) = (size (dom disk_with_a_png) + 1)%nat.
Proof.
  cbv zeta. split; [vm_compute; reflexivity |].
  destruct (successful_downloads_counts_new_files net_png disk_with_a_png
              ["/a.png"; "/b.png"; "b.png"] "https://ex.com/" "images")
    as (_ & _ & _ & H).
  apply H. intros filepath content written. discriminate.
Defined.

(** X10.  Within one batch no path is returned twice and none of the
    returned paths existed before: the returned paths are pairwise
    different, free in the initial directory and present afterwards
    together with the initial files; when no write breaks off midway the
    directory afterwards holds the initial files and exactly these
    paths. *)
Theorem batch_writes_each_file_once net fs urls base_url save_dir :
  let run := download_all net fs urls base_url save_dir in
  let saved := omap return_value run.1.2 in
  NoDup saved
  ∧ Forall (λ p, fs !! p = None) saved
  ∧ dom fs ∪ list_to_set saved ⊆ dom run.2
  ∧ (write_is_atomic net → dom run.2 = dom fs ∪ list_to_set saved).
Proof.
  cbv zeta.
  destruct (download_all_saved net fs urls base_url save_dir)
    as (Hnd & Hfree & Hin & _).
  split_and!; [done | by apply Forall_forall | |].
  - apply union_subseteq. split; [apply download_all_dom |].
    intros p Hp%elem_of_list_to_set. by apply elem_of_dom, Hin.
  - by apply download_all_dom_atomic.
Qed.

Lemma batch_writes_each_file_once_witness :
  let run := download_all net_png ∅ ["/a.png"; "/b.png"; "b.png"]
               "https://ex.com/" "images" in
  dom run.2 = dom (∅ : gmap string string)
              ∪ list_to_set (omap return_value run.1.2).
Proof.
  cbv zeta.
  destruct (batch_writes_each_file_once net_png ∅
              ["/a.png"; "/b.png"; "b.png"] "https://ex.com/" "images")
    as (_ & _ & _ & H).
  apply H. intros filepath content written. discriminate.
Defined.

End BatchExtras.

(** ** The extractor as a union over the elements *)
Section ExtractorExtras.
Implicit Types (attrs : gmap string string) (acc : gset string).

Lemma add_if_present_acc attrs acc attr :
  add_if_present attrs acc attr = acc ∪ add_if_present attrs ∅ attr.
Proof.
  unfold add_if_present. destruct (attrs !! attr).
  - by rewrite (left_id_L ∅ (∪)).
  - by rewrite (right_id_L ∅ (∪)).
Qed.

Lemma foldl_acc {A} (f : gset string → A → gset string) acc (l : list A) :
  (∀ a x, f a x = a ∪ f ∅ x) →
  foldl f acc l = acc ∪ ⋃ (f ∅ <$> l).
Proof.
  intros Hf. revert acc. induction l as [|x l IH]; intros acc; cbn.
  - by rewrite (right_id_L ∅ (∪)).
  - by rewrite IH, (Hf acc x), (assoc_L (∪)).
Qed.

Lemma extract_img_acc acc attrs :
  extract_img acc attrs = acc ∪ extract_img ∅ attrs.
Proof.
  unfold extract_img, add_if_present, lazy_attrs. cbn [foldl].
  repeat case_match;
    rewrite ?(left_id_L ∅ (∪)), ?(right_id_L ∅ (∪)), <- ?(assoc_L (∪));
    done.
Qed.

Lemma extract_style_acc acc style :
  extract_style acc style = acc ∪ extract_style ∅ style.
Proof. unfold extract_style. by rewrite (left_id_L ∅ (∪)). Qed.

Lemma extract_from_union imgs styles :
  extract_from imgs styles
  = ⋃ (extract_img ∅ <$> imgs) ∪ ⋃ (extract_style ∅ <$> styles).
Proof.
  unfold extract_from.
  rewrite (foldl_acc extract_style) by apply extract_style_acc.
  rewrite (foldl_acc extract_img) by apply extract_img_acc.
  by rewrite (left_id_L ∅ (∪)).
Qed.

Lemma union_list_perm (Xs Ys : list (gset string)) :
  Xs ≡ₚ Ys → ⋃ Xs = ⋃ Ys.
Proof.
  intros Hp. apply set_eq. intros x. rewrite !elem_of_union_list.
  split; intros (X & HX & Hx); exists X; split; try done.
  - by rewrite <- Hp.
  - by rewrite Hp.
Qed.

(** X11.  The extracted set is the union of what each [<img>] element
    and each styled element contributes on its own: it does not depend
    on the order of the elements, and the elements of two snapshots put
    together give the union of the two extractions. *)
Theorem extraction_is_a_union_over_elements
    (imgs imgs' : list (gmap string string)) (styles styles' : list string) :
  extract_from imgs styles
  = ⋃ (extract_img ∅ <$> imgs) ∪ ⋃ (extract_style ∅ <$> styles)
  ∧ extract_from (imgs ++ imgs') (styles ++ styles')
    = extract_from imgs styles ∪ extract_from imgs' styles'
  ∧ (imgs ≡ₚ imgs' → styles ≡ₚ styles' →
     extract_from imgs styles = extract_from imgs' styles').
Proof.
  split_and!.
  - apply extract_from_union.
  - rewrite !extract_from_union, !fmap_app, !union_list_app_L.
    apply set_eq. intros x. rewrite !elem_of_union. tauto.
  - intros Hi Hs. rewrite !extract_from_union.
    f_equal; apply union_list_perm; by apply fmap_Permutation.
Qed.

Lemma extraction_is_a_union_over_elements_witness :
  extract_from [ {[ "src" := "/a.png" ]}; {[ "data-src" := "/b.png" ]} ]
    [ "background-image:url(/c.png)"; "background-image:url(/d.png)" ]
  = extract_from [ {[ "data-src" := "/b.png" ]}; {[ "src" := "/a.png" ]} ]
      [ "background-image:url(/d.png)"; "background-image:url(/c.png)" ].
Proof.
  apply (extraction_is_a_union_over_elements
           [ {[ "src" := "/a.png" ]}; {[ "data-src" := "/b.png" ]} ]
           [ {[ "data-src" := "/b.png" ]}; {[ "src" := "/a.png" ]} ]
           [ "background-image:url(/c.png)"; "background-image:url(/d.png)" ]
           [ "background-image:url(/d.png)"; "background-image:url(/c.png)" ]);
    apply perm_swap.
Defined.

(** X12.  An [<img>] element is read through seven attributes only:
    [src], [srcset], [data-src], [data-original], [data-lazy-src],
    [data-url] and [data-lazysrc].  Two elements that agree on them
    contribute the same references, and an element with none of them
    contributes nothing. *)
Theorem only_seven_attributes_are_read acc attrs attrs' :
  ((∀ a, a ∈ "src" :: "srcset" :: "data-src" :: lazy_attrs →
         attrs !! a = attrs' !! a) →
   extract_img acc attrs = extract_img acc attrs')
  ∧ ((∀ a, a ∈ "src" :: "srcset" :: "data-src" :: lazy_attrs →
           attrs !! a = None) →
     extract_img acc attrs = acc).
Proof.
  assert (∀ m m' : gmap string string,
            (∀ a, a ∈ "src" :: "srcset" :: "data-src" :: lazy_attrs →
                  m !! a = m' !! a) →
            extract_img acc m = extract_img acc m') as Hagree.
  { intros m m' H. unfold extract_img, add_if_present, lazy_attrs in *.
    cbn [foldl].
    rewrite !(H "src"), !(H "srcset"), !(H "data-src"),
      !(H "data-original"), !(H "data-lazy-src"), !(H "data-url"),
      !(H "data-lazysrc"); [done |..];
      repeat first [ apply list_elem_of_here | apply list_elem_of_further ]. }
  split; [by apply Hagree |].
  intros Hnone. rewrite (Hagree attrs ∅).
  - unfold extract_img, add_if_present, lazy_attrs.
    cbn [foldl]. by rewrite !lookup_empty.
  - intros a Ha. by rewrite Hnone, lookup_empty.
Qed.

Lemma only_seven_attributes_are_read_witness :
  extract_img ∅ {[ "src" := "/a.png"; "alt" := "a"; "class" := "hero" ]}
  = extract_img ∅ {[ "src" := "/a.png" ]}.
Proof.
  destruct (only_seven_attributes_are_read ∅
              {[ "src" := "/a.png"; "alt" := "a"; "class" := "hero" ]}
              {[ "src" := "/a.png" ]}) as [H _].
  apply H. intros a Ha. unfold lazy_attrs in Ha.
  repeat (apply elem_of_cons in Ha as [-> | Ha]; [vm_compute; reflexivity |]).
  by apply elem_of_nil in Ha.
Defined.

End ExtractorExtras.

(** ** The references the two patterns capture *)
Section PatternExtras.
Implicit Types (s g rest : string).

Lemma span_spec (f : ascii → bool) s :
  s = (Py.span f s).1 +:+ (Py.span f s).2
  ∧ Py.all_chars f (Py.span f s).1 = true.
Proof.
  induction s as [|c s [IH1 IH2]]; simpl; [done |].
  destruct (f c) eqn:Hc; [| done].
  destruct (Py.span f s) as [a b]. cbn [fst snd] in *.
  simpl. rewrite Hc. by rewrite <- IH1.
Qed.

(** A captured group comes from a match at some position of the text. *)
Lemma findall_from_elem (m : string → option (string * string)) s skip g :
  g ∈ Re.findall_from m s skip →
  ∃ pre t rest, s = pre +:+ t ∧ m t = Some (g, rest).
Proof.
  revert skip. induction s as [|c s IH]; intros skip; cbn [Re.findall_from].
  - by intros ?%elem_of_nil.
  - assert (∀ k, g ∈ Re.findall_from m s k →
                 ∃ pre t rest, String c s = pre +:+ t ∧ m t = Some (g, rest))
      as Htail.
    { intros k (pre & t & rest & -> & Hm)%IH.
      by exists (String c pre), t, rest. }
    destruct skip as [|k]; [| apply Htail].
    destruct (m (String c s)) as [[g' rest]|] eqn:Hm; [| apply Htail].
    intros [-> | Hin]%elem_of_cons; [| by apply Htail in Hin].
    by exists EmptyString, (String c s), rest.
Qed.

Lemma match_srcset_group s g rest :
  Re.match_srcset s = Some (g, rest) →
  Py.truthy g = true
  ∧ Py.all_chars (λ c, negb (Py.isspace c)) g = true
  ∧ ∃ t, s = g +:+ t.
Proof.
  unfold Re.match_srcset.
  pose proof (span_spec (λ c, negb (Py.isspace c)) s) as [Hs Hall].
  destruct (Py.span (λ c, negb (Py.isspace c)) s) as [url r1].
  cbn [fst snd] in *.
  destruct url as [|c url]; [done |].
  destruct (Py.span Py.isspace r1) as [sp r2].
  intros [= <- _]. split_and!; [done | done | by exists r1].
Qed.

(** X13.  Every reference taken from a [srcset] value is a non-empty
    piece of that value without any white space. *)
Theorem srcset_references_are_unspaced_pieces srcset g :
  g ∈ Re.findall Re.match_srcset srcset →
  Py.truthy g = true
  ∧ Py.all_chars (λ c, negb (Py.isspace c)) g = true
  ∧ Py.contains srcset g = true.
Proof.
  intros (pre & t & rest & -> & Hm)%findall_from_elem.
  apply match_srcset_group in Hm as (Hg & Hall & t' & ->).
  split_and!; [done | done |]. by apply (contains_intro _ pre t').
Qed.

Lemma srcset_references_are_unspaced_pieces_witness :
  Py.truthy "b.png" = true
  ∧ Py.all_chars (λ c, negb (Py.isspace c)) "b.png" = true
  ∧ Py.contains "a.png 480w,  b.png 800w" "b.png" = true.
Proof.
  apply (srcset_references_are_unspaced_pieces "a.png 480w,  b.png 800w").
  vm_compute. apply list_elem_of_further, list_elem_of_here.
Defined.

Lemma match_css_url_group s g rest :
  Re.match_css_url s = Some (g, rest) →
  Py.truthy g = true
  ∧ Py.all_chars (λ c, negb (Re.is_quote_or_paren c)) g = true
  ∧ ((∃ t, s = "url(" +:+ g +:+ t)
     ∨ ∃ q t, Re.is_quote q = true ∧ s = "url(" +:+ String q g +:+ t).
Proof.
  unfold Re.match_css_url.
  destruct (Py.startswith s "url(") eqn:Hs; [| done].
  apply startswith_inv in Hs as [r0 ->].
  change (Py.drop 4 ("url(" +:+ r0)) with r0.
  assert (∀ r1, (let '(g0, r2) :=
                   Py.span (λ c, negb (Re.is_quote_or_paren c)) r1 in
                 match g0 with
                 | EmptyString => None
                 | String _ _ => Some (g0, r2)
                 end) = Some (g, rest) →
                Py.truthy g = true
                ∧ Py.all_chars (λ c, negb (Re.is_quote_or_paren c)) g = true
                ∧ r1 = g +:+ rest) as Hgroup.
  { intros r1.
    pose proof (span_spec (λ c, negb (Re.is_quote_or_paren c)) r1)
      as [Hr Hall].
    destruct (Py.span _ r1) as [g0 r2]. cbn [fst snd] in *.
    destruct g0; [done |]. intros [= <- <-]. by split_and!. }
  destruct r0 as [|c r];
    [intros (Hg & _ & Hr)%Hgroup; by destruct g |].
  destruct (Re.is_quote c) eqn:Hq.
  - intros (Hg & Hall & ->)%Hgroup. split_and!; [done | done |].
    right. by exists c, rest.
  - intros (Hg & Hall & Hr)%Hgroup. split_and!; [done | done |].
    left. exists rest. by rewrite <- Hr.
Qed.

(** X14.  Every reference taken from a [style] text is non-empty, holds
    no quote and no closing parenthesis, and stands in the text right
    after [url(] or after [url(] and one quote; a style text without
    [url(] yields nothing. *)
Theorem css_references_follow_url_paren style g :
  g ∈ Re.findall Re.match_css_url style →
  Py.truthy g = true
  ∧ Py.all_chars (λ c, negb (Re.is_quote_or_paren c)) g = true
  ∧ Py.contains style "url(" = true
  ∧ (Py.contains style ("url(" +:+ g) = true
     ∨ ∃ q, Re.is_quote q = true
            ∧ Py.contains style ("url(" +:+ String q g) = true).
Proof.
  intros (pre & t & rest & -> & Hm)%findall_from_elem.
  apply match_css_url_group in Hm
    as (Hg & Hall & [[t' ->] | (q & t' & Hq & ->)]).
  - split_and!; [done | done | |].
    + by apply (contains_intro _ pre (g +:+ t')).
    + left. apply (contains_intro _ pre t'). by rewrite !append_assoc.
  - split_and!; [done | done | |].
    + by apply (contains_intro _ pre (String q g +:+ t')).
    + right. exists q. split; [done |].
      apply (contains_intro _ pre t'). by rewrite !append_assoc.
Qed.

Lemma css_references_follow_url_paren_witness :
  Py.truthy "/d.jpg" = true
  ∧ Py.all_chars (λ c, negb (Re.is_quote_or_paren c)) "/d.jpg" = true
  ∧ Py.contains "color:red; background-image: url('/d.jpg')" "url(" = true
  ∧ (Py.contains "color:red; background-image: url('/d.jpg')"
       ("url(" +:+ "/d.jpg") = true
     ∨ ∃ q, Re.is_quote q = true
            ∧ Py.contains "color:red; background-image: url('/d.jpg')"
                ("url(" +:+ String q "/d.jpg") = true).
Proof.
  apply (css_references_follow_url_paren
           "color:red; background-image: url('/d.jpg')").
  vm_compute. apply list_elem_of_here.
Defined.

End PatternExtras.

(** ** The scroll loop, the consent banner and the run *)
Section HarvestExtras.
Context {D : Type} `{RenderSurface D}.
Implicit Types (st : LoopState) (d : D).

Lemma scroll_loop_exit fuel st d st' d' :
  scroll_loop fuel st d = (Some st', d') →
  steps st = scroll_attempts st →
  scroll_attempts st ≤ max_scroll_attempts →
  (scroll_attempts st' = max_scroll_attempts
   ∧ steps st' = max_scroll_attempts)
  ∨ (scroll_attempts st' < max_scroll_attempts
     ∧ steps st' = S (scroll_attempts st')).
Proof.
  revert st d. induction fuel as [|fuel IH]; intros st d.
  - cbn [scroll_loop].
    destruct (scroll_attempts st <? max_scroll_attempts)%nat eqn:E; [done |].
    apply Nat.ltb_ge in E. intros [= <- <-] Hs Hle. left. lia.
  - rewrite scroll_loop_S.
    destruct (scroll_attempts st <? max_scroll_attempts)%nat eqn:E.
    2:{ apply Nat.ltb_ge in E. intros [= <- <-] Hs Hle. left. lia. }
    apply Nat.ltb_lt in E.
    pose proof (scroll_step_spec st d) as Hstep. cbv zeta in Hstep.
    destruct (scroll_step st d) as [[st1 stop] d1].
    cbn [fst snd] in Hstep. destruct Hstep as (Hsteps & Hatt & _).
    destruct stop.
    + intros [= <- <-] Hs Hle. right. lia.
    + intros Hloop Hs Hle. apply (IH _ _ Hloop); lia.
Qed.

(** X15.  The harvest ends in one of two ways: all five attempts are
    used up, after exactly five executions of the loop body; or the
    stopping condition was met, and then the loop body has run once more
    than the number of scroll attempts the script reports. *)
Theorem harvest_ends_exhausted_or_stopped (url : string) d :
  ∃ st d',
    get_image_urls_from_page max_scroll_attempts url d = (Some st, d')
    ∧ ((scroll_attempts st = 5 ∧ steps st = 5)
       ∨ (scroll_attempts st < 5 ∧ steps st = S (scroll_attempts st))).
Proof.
  unfold get_image_urls_from_page.
  destruct (scroll_height (load_page url d)) as [h d0].
  destruct (scroll_loop_terminates max_scroll_attempts (mkLoop ∅ h 0 0) d0)
    as (st & d' & Hloop & _).
  { cbn [scroll_attempts]. lia. }
  exists st, d'. split; [done |].
  apply (scroll_loop_exit _ _ _ _ _ Hloop); cbn; unfold max_scroll_attempts; lia.
Qed.

(** X16.  The harvest never comes back without having looked at the
    page: the references of the first snapshot, taken right after the
    page is loaded and before any scrolling, are in the result, and the
    set only grows from one execution of the loop body to the next. *)
Theorem harvest_contains_the_first_snapshot (url : string) d st0 :
  let d0 := (scroll_height (load_page url d)).2 in
  ∃ st d',
    get_image_urls_from_page max_scroll_attempts url d = (Some st, d')
    ∧ (extract_images_from_current_state d0).1 ⊆ img_urls st
    ∧ img_urls st0 ⊆ img_urls (scroll_step st0 d).1.1.
Proof.
  cbv zeta. unfold get_image_urls_from_page.
  destruct (scroll_height (load_page url d)) as [h d0]. cbn [snd].
  destruct (scroll_loop_terminates max_scroll_attempts (mkLoop ∅ h 0 0) d0)
    as (st & d' & Hloop & _).
  { cbn [scroll_attempts]. lia. }
  exists st, d'. split; [done |]. split; [| apply scroll_step_monotone].
  revert Hloop. change max_scroll_attempts with (S 4) at 1.
  rewrite scroll_loop_S. cbn [scroll_attempts].
  change (0 <? max_scroll_attempts)%nat with true. cbv iota.
  pose proof (scroll_step_spec (mkLoop ∅ h 0 0) d0) as Hstep.
  cbv zeta in Hstep.
  destruct (scroll_step _ d0) as [[st1 stop] d1].
  cbn [fst snd img_urls scroll_attempts] in Hstep.
  destruct Hstep as (_ & Hatt & Hsub).
  rewrite (left_id_L ∅ (∪)) in Hsub. destruct stop.
  - by intros [= <- <-].
  - intros Hloop.
    destruct (scroll_loop_terminates 4 st1 d1)
      as (st2 & d2 & Hl2 & _ & _ & Hmono & _).
    { unfold max_scroll_attempts. lia. }
    rewrite Hloop in Hl2. injection Hl2 as <- <-.
    by etrans.
Qed.

End HarvestExtras.

Section ConsentExtras.

Lemma click_first_displayed_spec k cookie_buttons i :
  click_first_displayed k cookie_buttons = Accepted i →
  k ≤ i
  ∧ ∃ b, cookie_buttons !! (i - k) = Some b
         ∧ is_displayed b = Some true
         ∧ click_succeeds b = true
         ∧ Forall (λ x, is_displayed x = Some false)
             (take (i - k) cookie_buttons).
Proof.
  revert k. induction cookie_buttons as [|b l IH]; intros k;
    cbn [click_first_displayed]; [done |].
  destruct (is_displayed b) as [[|]|] eqn:Hd; [| | done].
  - destruct (click_succeeds b) eqn:Hc; [| done]. intros [= <-].
    split; [done |]. rewrite Nat.sub_diag. exists b.
    by split_and!.
  - intros (Hle & b' & Hb' & Hd' & Hc' & Hall)%IH.
    split; [lia |]. exists b'.
    replace (i - k) with (S (i - S k)) by lia. cbn [take].
    split_and!; try done. by constructor.
Qed.

(** X17.  The consent banner is dismissed by one click at most, on the
    first element the browser reports as displayed: an accepted attempt
    clicked a displayed element before which every element had been
    reported hidden, and elements after it play no part. *)
Theorem consent_clicks_the_first_displayed (found : option (list Button))
    (hidden rest : list Button) (b : Button) i :
  (accept_cookies found = Accepted i →
   ∃ cookie_buttons b',
     found = Some cookie_buttons
     ∧ cookie_buttons !! i = Some b'
     ∧ is_displayed b' = Some true
     ∧ click_succeeds b' = true
     ∧ Forall (λ x, is_displayed x = Some false) (take i cookie_buttons))
  ∧ (Forall (λ x, is_displayed x = Some false) hidden →
     is_displayed b = Some true →
     accept_cookies (Some (hidden ++ b :: rest))
     = if click_succeeds b then Accepted (length hidden) else ConsentFailed)
  ∧ (Forall (λ x, is_displayed x = Some false) hidden →
     accept_cookies (Some hidden) = NoBanner).
Proof.
  split_and!.
  - destruct found as [l|]; [| done]. cbn [accept_cookies].
    intros (_ & b' & Hb' & Hrest)%click_first_displayed_spec.
    rewrite Nat.sub_0_r in *. by exists l, b'.
  - intros Hh Hb. cbn [accept_cookies].
    assert (∀ k, click_first_displayed k (hidden ++ b :: rest)
                 = if click_succeeds b then Accepted (k + length hidden)
                   else ConsentFailed) as Hgen; [| apply (Hgen 0)].
    induction Hh as [|x l Hx _ IH]; intros k; cbn [click_first_displayed app].
    + rewrite Hb. cbn [length]. by rewrite Nat.add_0_r.
    + rewrite Hx, IH. cbn [length].
      by replace (S k + length l) with (k + S (length l)) by lia.
  - intros Hh. cbn [accept_cookies]. generalize 0 as k.
    induction Hh as [|x l Hx _ IH]; intros k; cbn [click_first_displayed];
      [done |]. by rewrite Hx.
Qed.

End ConsentExtras.

Lemma consent_clicks_the_first_displayed_witness :
  accept_cookies
    (Some [ mkButton (Some false) true; mkButton (Some true) true;
            mkButton None false ])
  = Accepted 1.
Proof.
  destruct (consent_clicks_the_first_displayed None
              [ mkButton (Some false) true ] [ mkButton None false ]
              (mkButton (Some true) true) 0) as (_ & H & _).
  apply H; [repeat constructor | reflexivity].
Defined.

Section RunExtras.

(** X18.  One run of harvest and download.  When the harvest raises,
    [main] ends in its handler and the directory is as it was.
    Otherwise the number of downloads reported is at most the number of
    unique URLs reported, the run has added at least that many files to
    [images], and exactly that many when no write breaks off midway.  In
    every case the files that were there are kept as they were, whatever
    order the set of URLs is walked in. *)
Theorem run_reports_what_it_added (order : gset string → list string)
    (net : Network) (fs : gmap string string) (url : string)
    (harvest : option (gset string)) :
  (∀ s, order s ≡ₚ elements s) →
  let run := main_run order net fs url harvest in
  fs ⊆ run.2
  ∧ match run.1 with
    | Errored => harvest = None ∧ run.2 = fs
    | Reported found successful_downloads =>
        (∃ img_urls, harvest = Some img_urls ∧ found = size img_urls)
        ∧ successful_downloads ≤ found
        ∧ size (dom fs) + successful_downloads ≤ size (dom run.2)
        ∧ (write_is_atomic net →
           size (dom run.2) = size (dom fs) + successful_downloads)
    end.
Proof.
  intros Horder. cbv zeta. unfold main_run.
  destruct harvest as [img_urls|]; [| done].
  pose proof (download_all_saved net fs (order img_urls) url "images")
    as (Hnd & Hfree & Hin & Hn & Hle).
  pose proof (download_all_dom_atomic net fs (order img_urls) url "images")
    as Hatomic.
  pose proof (download_all_dom net fs (order img_urls) url "images") as Hdom.
  pose proof (download_all_lookup_kept net fs (order img_urls) url "images")
    as Hkept.
  cbv zeta in *.
  destruct (download_all net fs (order img_urls) url "images")
    as [[n os] fs'].
  cbn [fst snd] in *.
  split; [apply map_subseteq_spec; intros p c; apply Hkept |].
  split_and!.
  - by exists img_urls.
  - by rewrite (Horder img_urls) in Hle.
  - rewrite Hn. apply size_dom_with_new; [done | done |].
    apply union_subseteq. split; [done |].
    intros p Hp%elem_of_list_to_set. by apply elem_of_dom, Hin.
  - intros Hat. rewrite (Hatomic Hat), Hn.
    rewrite size_union, (size_list_to_set (C := gset string)); [done | done |].
    intros p Hp Hq%elem_of_list_to_set%Hfree%not_elem_of_dom. done.
Qed.

End RunExtras.

Lemma run_reports_what_it_added_witness :
  let run := main_run elements net_png disk_with_a_png "https://ex.com/"
               (img_urls <$> (@get_image_urls_from_page Q
                                (static_surface scenario_page)
                                max_scroll_attempts "https://ex.com/" 0%Q).1) in
  run.1 = Reported 4 3
  ∧ disk_with_a_png ⊆ run.2
  ∧ size (dom run.2) = size (dom disk_with_a_png) + 3.
Proof.
  cbv zeta.
  pose proof (run_reports_what_it_added elements net_png disk_with_a_png
                "https://ex.com/"
                (img_urls <$> (@get_image_urls_from_page Q
                                 (static_surface scenario_page)
                                 max_scroll_attempts "https://ex.com/" 0%Q).1))
    as H.
  cbv zeta in H.
  assert ((main_run elements net_png disk_with_a_png "https://ex.com/"
             (img_urls <$> (@get_image_urls_from_page Q
                              (static_surface scenario_page)
                              max_scroll_attempts "https://ex.com/" 0%Q).1)).1
          = Reported 4 3) as Hrun by (vm_compute; reflexivity).
  rewrite Hrun in H.
  destruct H as (Hsub & _ & _ & _ & Hsize); [intros s; reflexivity |].
  split_and!; [done | done |].
  apply Hsize. intros filepath content written. discriminate.
Defined.

(** X7.  A call fails only on an exception the outer handler catches:
    the resolution or the parse of the resolved URL raises
    [ValueError]; or the full retrieval is issued and raises, by itself
    or through [raise_for_status]; or the retrieval succeeds and the
    writing of the file raises.  A failed call leaves the directory as
    it was, except that a write which raises after [open] has created
    the file leaves the bytes written so far. *)
Theorem failure_has_a_cause (net : Network) (fs : gmap string string)
    (url base_url save_dir : string) :
  let res := download_image net fs url base_url save_dir in
  outcome res = Failed →
  (resolve url base_url = None ∧ files res = fs)
  ∨ ∃ r,
      resolve url base_url = Some r
      ∧ ((UrlParse.urlparse r EmptyString = None ∧ files res = fs)
         ∨ (EvGet r ∈ trace res
            ∧ ((retrieval_raises net r ∧ files res = fs)
               ∨ ∃ p resp,
                   filepath_of r save_dir = Some p
                   ∧ fs !! p = None
                   ∧ get net r = Some resp
                   ∧ raises_for_status resp = false
                   ∧ ((write_file net p (content resp) = OpenRaised
                       ∧ files res = fs)
                      ∨ ∃ written,
                          write_file net p (content resp)
                            = WriteRaised written
                          ∧ files res
                            = <[p := Py.take written (content resp)]> fs)))).
Proof.
  assert (∀ r, filepath_of r save_dir = None →
               UrlParse.urlparse r EmptyString = None) as Hparse.
  { intros r. unfold filepath_of. by destruct (UrlParse.urlparse r _). }
  cbv zeta. unfold retrieval_raises.
  download_cases; intros _; try (by left);
    right; eexists; (split; [done |]);
    lazymatch goal with
    | Hf : filepath_of _ _ = None |- _ => left; split; [by apply Hparse | done]
    | Hw : write_file _ _ _ = _ |- _ =>
        right; split; [apply list_elem_of_further, list_elem_of_here |];
        right; eexists _, _; (split_and!; [done.. |]);
        first [ left; done | right; by eexists ]
    | Hg : get _ _ = _ |- _ =>
        right; split; [apply list_elem_of_further, list_elem_of_here |];
        left; rewrite Hg; done
    end.
Qed.

Lemma failure_has_a_cause_witness :
  let res := download_image net_short_names ∅ url_with_long_extension
               "https://ex.com/" "images" in
  (resolve url_with_long_extension "https://ex.com/" = None ∧ files res = ∅)
  ∨ ∃ r,
      resolve url_with_long_extension "https://ex.com/" = Some r
      ∧ ((UrlParse.urlparse r EmptyString = None ∧ files res = ∅)
         ∨ (EvGet r ∈ trace res
            ∧ ((retrieval_raises net_short_names r ∧ files res = ∅)
               ∨ ∃ p resp,
                   filepath_of r "images" = Some p
                   ∧ (∅ : gmap string string) !! p = None
                   ∧ get net_short_names r = Some resp
                   ∧ raises_for_status resp = false
                   ∧ ((write_file net_short_names p (content resp) = OpenRaised
                       ∧ files res = ∅)
                      ∨ ∃ written,
                          write_file net_short_names p (content resp)
                            = WriteRaised written
                          ∧ files res
                            = <[p := Py.take written (content resp)]> ∅)))).
Proof.
  apply (failure_has_a_cause net_short_names ∅ url_with_long_extension
           "https://ex.com/" "images").
  vm_compute. reflexivity.
Defined.

(** The two ways a write fails: the file name is too long for [open],
    and nothing appears on disk; the disk is full, and an empty file
    stays behind, which a second call takes for a download made
    earlier. *)
Example write_failures :
  String.length url_with_long_extension = 247%nat
  ∧ download_image net_short_names ∅ url_with_long_extension
      "https://ex.com/" "images"
    = mkResult Failed
        [EvHead url_with_long_extension; EvGet url_with_long_extension] ∅
  ∧ download_image net_disk_full ∅ "/a.png" "https://ex.com/" "images"
    = mkResult Failed
        [EvHead "https://ex.com/a.png"; EvGet "https://ex.com/a.png"]
        {[ "images/c98b0c87944d062e1bacda2032deb838.png" := EmptyString ]}
  ∧ outcome (download_image net_disk_full
               {[ "images/c98b0c87944d062e1bacda2032deb838.png"
                    := EmptyString ]}
               "/a.png" "https://ex.com/" "images")
    = SkippedDuplicateOnDisk.
Proof. vm_compute. repeat split. Qed.
